(** * Pomodouroboros: the macOS driver around the day scheduler

    A shallow embedding of [pomodouroboros/mac_gui.py] and
    [pomodouroboros/notifs.py], and the properties the driver is expected
    to have with respect to the day scheduler ([pomodouroboros.pommodel]).

    Conventions:
    - Python objects that are shared and mutated ([Day]) live in a store
      and are handled through references;
    - functions with effects are computations in a state-and-exception
      monad over the [World] (and, for methods, the receiver);
    - Python floats are modelled as rationals ([Q]);
    - [datetime] values are microseconds of local time. *)

From Stdlib Require Import QArith Lqa Sorted.
From stdpp Require Import gmap strings list pretty.

Open Scope Z_scope.

(** ** Text *)

(** Python string literals outside ASCII, as their UTF-8 bytes. *)
Definition utf8 (bytes : list nat) : string :=
  String.string_of_list_ascii (Ascii.ascii_of_nat <$> bytes).

Definition ldquo : string := utf8 [226; 128; 156]%nat.
Definition rdquo : string := utf8 [226; 128; 157]%nat.
Definition checkMark : string := utf8 [226; 156; 147]%nat.
Definition ballotX : string := utf8 [226; 156; 151]%nat.
Definition ellipsis : string := utf8 [226; 128; 166]%nat.
Definition can : string := utf8 [240; 159; 165; 171]%nat.
Definition tomato : string := utf8 [240; 159; 141; 133]%nat.

(** ** Time *)

Definition datetime := Z.
Definition date := Z.

Definition microsecondsPerDay : Z := 86400000000.

(** [datetime.date()] *)
Definition dateOf (t : datetime) : date := t / microsecondsPerDay.

(** [time.time()]: seconds as a float. *)
Definition secondsOf (t : datetime) : Q := (t # 1000000)%Q.

(** ** The data model of the scheduler *)

Module Model.

(** Modelled from the spec: [pommodel.Intention] (section 3), the declared
    goal of one Pomodoro and its tri-state verdict. *)
Record Intention := {
  description : string;
  wasSuccessful : option bool
}.

(** Modelled from the spec: [pommodel.Pomodoro] (section 3). *)
Record Pomodoro := {
  intention : option Intention;
  pomStartTime : datetime;
  pomEndTime : datetime
}.

(** Modelled from the spec: [pommodel.Break] (section 3). *)
Record Break := {
  breakStartTime : datetime;
  breakEndTime : datetime
}.

(** Modelled from the spec: [pommodel.Interval] (section 3), a tagged
    union; [isinstance(x, Pomodoro)] is a match on the tag. *)
Inductive Interval :=
| IPomodoro (p : Pomodoro)
| IBreak (b : Break).

(** Modelled from the spec: [pommodel.IntentionResponse] (section 4.1). *)
Inductive IntentionResponse :=
| CanBeSet
| AlreadySet
| OnBreak
| TooLate
| WasSet.

(** Modelled from the spec: [pommodel.Day] (section 3). *)
Record Day := {
  startTime : datetime;
  pendingIntervals : list Interval;
  elapsedIntervals : list Interval
}.

#[export] Instance Intention_eq_dec : EqDecision Intention.
Proof. solve_decision. Defined.
#[export] Instance Pomodoro_eq_dec : EqDecision Pomodoro.
Proof. solve_decision. Defined.
#[export] Instance Break_eq_dec : EqDecision Break.
Proof. solve_decision. Defined.
#[export] Instance Interval_eq_dec : EqDecision Interval.
Proof. solve_decision. Defined.
#[export] Instance IntentionResponse_eq_dec : EqDecision IntentionResponse.
Proof. solve_decision. Defined.
#[export] Instance Day_inhabited : Inhabited Day :=
  populate {| startTime := 0; pendingIntervals := []; elapsedIntervals := [] |}.

(** [str()] of an enum member. *)
Definition IntentionResponse_str (r : IntentionResponse) : string :=
  match r with
  | CanBeSet => "IntentionResponse.CanBeSet"
  | AlreadySet => "IntentionResponse.AlreadySet"
  | OnBreak => "IntentionResponse.OnBreak"
  | TooLate => "IntentionResponse.TooLate"
  | WasSet => "IntentionResponse.WasSet"
  end.

(** A Pomodoro object inside a day, by where the day holds it. *)
Inductive PomRef :=
| InPending (i : nat)
| InElapsed (i : nat).

Definition pomOfInterval (x : Interval) : option Pomodoro :=
  match x with
  | IPomodoro p => Some p
  | IBreak _ => None
  end.

Definition derefPom (day : Day) (r : PomRef) : option Pomodoro :=
  match r with
  | InPending i => pendingIntervals day !! i ≫= pomOfInterval
  | InElapsed i => elapsedIntervals day !! i ≫= pomOfInterval
  end.

Definition withIntention (p : Pomodoro) (i : option Intention) : Pomodoro :=
  {| intention := i; pomStartTime := pomStartTime p; pomEndTime := pomEndTime p |}.

Definition storePom (day : Day) (r : PomRef) (p : Pomodoro) : Day :=
  match r with
  | InPending i =>
      {| startTime := startTime day;
         pendingIntervals := <[i := IPomodoro p]> (pendingIntervals day);
         elapsedIntervals := elapsedIntervals day |}
  | InElapsed i =>
      {| startTime := startTime day;
         pendingIntervals := pendingIntervals day;
         elapsedIntervals := <[i := IPomodoro p]> (elapsedIntervals day) |}
  end.

End Model.
Export Model.

(** ** Computations: state and exceptions *)

(** The exceptions the driver itself can raise, by an index or an
    attribute that is not there, and those of its collaborators. *)
Inductive BaseException :=
| IndexError
| AttributeError
| Exception (what : string).

(** [twisted.python.failure.Failure().getTraceback()] *)
Definition getTraceback (e : BaseException) : string :=
  match e with
  | IndexError => "builtins.IndexError: list index out of range"
  | AttributeError => "builtins.AttributeError"
  | Exception what => what
  end.

Inductive Outcome (A : Type) :=
| Returned (a : A)
| Raised (e : BaseException).
Arguments Returned {A} a.
Arguments Raised {A} e.

(** A computation on a state [S]: it returns or raises, and the state it
    leaves is kept in both cases, as Python keeps the mutations made before
    an exception. *)
Definition M (S A : Type) : Type := S -> Outcome A * S.

#[global] Instance M_ret {S} : MRet (M S) := fun A a s => (Returned a, s).
#[global] Instance M_bind {S} : MBind (M S) := fun A B k m s =>
  match m s with
  | (Returned a, s') => k a s'
  | (Raised e, s') => (Raised e, s')
  end.

Definition gets {S A} (f : S -> A) : M S A := fun s => (Returned (f s), s).
Definition modify {S} (f : S -> S) : M S unit := fun s => (Returned tt, f s).
Definition raise {S A} (e : BaseException) : M S A := fun s => (Raised e, s).

(** [try: body / except BaseException: handler] *)
Definition tryExcept {S A} (body : M S A) (handler : BaseException -> M S A) : M S A :=
  fun s =>
    match body s with
    | (Returned a, s') => (Returned a, s')
    | (Raised e, s') => handler e s'
    end.

(** Run a computation on a part of the state. *)
Definition zoom {S T A} (part : S -> T) (update : T -> S -> S) (m : M T A) : M S A :=
  fun s => let '(r, t) := m (part s) in (r, update t s).

(** A value that is there or the exception its absence raises. *)
Definition orRaise {S A} (e : BaseException) (o : option A) : M S A :=
  match o with
  | Some a => mret a
  | None => raise e
  end.

(** The outcome of a call that does not touch the state. *)
Definition liftOutcome {S A} (o : Outcome A) : M S A := fun s => (o, s).

(** ** Views (AppKit objects as far as the driver sets them) *)

Inductive NSColor :=
| greenColor | redColor | yellowColor | purpleColor | blueColor
| lightGrayColor | darkGrayColor | orangeColor | blackColor.


(** [BigProgressView]: the instance attributes the class assigns, and the
    flag set by [setNeedsDisplay_]. *)
Record BigProgressView := {
  _percentage : Q;
  _leftColor : NSColor;
  _rightColor : NSColor;
  needsDisplay : bool
}.

(** The class attributes of [BigProgressView]. *)
Definition BigProgressView_init : BigProgressView :=
  {| _percentage := 0; _leftColor := greenColor; _rightColor := redColor;
     needsDisplay := false |}.

Definition setPercentage_ (newPercentage : Q) (self : BigProgressView) : BigProgressView :=
  {| _percentage := newPercentage;
     _leftColor := _leftColor self;
     _rightColor := _rightColor self;
     needsDisplay := true |}.

Definition setLeftColor_ (newLeftColor : NSColor) (self : BigProgressView) : BigProgressView :=
  {| _percentage := _percentage self;
     _leftColor := newLeftColor;
     _rightColor := _rightColor self;
     needsDisplay := needsDisplay self |}.

Definition setRightColor_ (newRightColor : NSColor) (self : BigProgressView) : BigProgressView :=
  {| _percentage := _percentage self;
     _leftColor := _leftColor self;
     _rightColor := newRightColor;
     needsDisplay := needsDisplay self |}.


(** [HUDWindow]: what the observer sets on it. *)
Record HUDWindow := {
  isVisible : bool;
  alphaValue : Q
}.

Definition setIsVisible_ (flag : bool) (self : HUDWindow) : HUDWindow :=
  {| isVisible := flag; alphaValue := alphaValue self |}.

Definition setAlphaValue_ (a : Q) (self : HUDWindow) : HUDWindow :=
  {| isVisible := isVisible self; alphaValue := a |}.

(** The dataclass [MacPomObserver]. *)
Record MacPomObserver := {
  progressView : BigProgressView;
  window : HUDWindow;
  lastThreshold : Q;
  active : bool
}.

(** The class variable [MacPomObserver.thresholds]. *)
Definition thresholds : list (Q * string) :=
  [ (0.25, "Time to get started!");
    (0.50, "Halfway there.");
    (0.75, "Time to finish up.");
    (0.95, "Almost done!") ]%Q.

(** ** The world outside the driver *)

Definition DayRef := nat.

(** The callables stored in [theDelegate.handlers]: the only one the
    program ever stores is the lambda of [pomodoroStarting], closed over the
    day it was given. *)
Inductive Handler :=
| LambdaExpressIntention (day : DayRef).

(** The entries of the status menu. *)
Inductive MenuAction :=
| ActSetIntention
| ActBonus
| ActSetSuccess (succeeded : bool) (index : Z)
| ActQuit.

(** The entry points of [pommodel.Day] the driver calls. *)
Inductive DayCall :=
| Call_expressIntention (now : datetime) (text : string)
| Call_evaluateIntention (pom : PomRef) (succeeded : bool)
| Call_advanceToTime (now : datetime) (observer : MacPomObserver)
| Call_bonusPomodoro (now : datetime).

(** What the driver does to its collaborators, in the order it does it. *)
Inductive Event :=
| EvPrint (line : string)
| EvNotificationRequest (identifier category title subtitle body : string)
| EvSaveDay (day : DayRef) (contents : Day)
| EvSetTitle (title : string)
| EvStatusMenu (icon : string) (entries : list (string * MenuAction))
| EvDayCall (day : DayRef) (call : DayCall).

(** The clock, the [Day] objects there are, [theDelegate.handlers], and
    what has been done so far. A reference the program holds is to a day of
    the store, and [readDay] reads it. *)
Record World := {
  clock : datetime;
  days : gmap DayRef Day;
  handlers : gmap string Handler;
  log : list Event
}.

Definition appendLog (es : list Event) (w : World) : World :=
  {| clock := clock w; days := days w; handlers := handlers w; log := log w ++ es |}.

Definition setDays (ds : gmap DayRef Day) (w : World) : World :=
  {| clock := clock w; days := ds; handlers := handlers w; log := log w |}.

Definition setHandlers (hs : gmap string Handler) (w : World) : World :=
  {| clock := clock w; days := days w; handlers := hs; log := log w |}.

Definition setClock (t : datetime) (w : World) : World :=
  {| clock := t; days := days w; handlers := handlers w; log := log w |}.

Definition emit (e : Event) : M World unit := modify (appendLog [e]).

Definition print (line : string) : M World unit := emit (EvPrint line).

Definition readDay (day : DayRef) : M World Day := gets (fun w => days w !!! day).

Definition writeDay (day : DayRef) (d : Day) : M World unit :=
  modify (fun w => setDays (<[day := d]> (days w)) w).

(** A new object: a reference no day has. *)
Definition allocDay (d : Day) : M World DayRef :=
  fun w =>
    let r := fresh (dom (days w)) in
    (Returned r, setDays (<[r := d]> (days w)) w).

(** [now()] and [date.today()] *)
Definition now : M World datetime := gets clock.
Definition today : M World date := gets (fun w => dateOf (clock w)).

(** ** notifs.py *)

Definition categoryIdentifier : string := "SET_INTENTION_PROMPT".
Definition messageIdentifier : string := "basic-message".

(** [askForIntent]: the callback is stored under the request's identifier
    and the request is handed to the notification centre; nothing calls the
    callback here. *)
Definition askForIntent (callback : Handler) : M World unit :=
  let identifier := "ask-for-intent" in
  modify (fun w => setHandlers (<[identifier := callback]> (handlers w)) w);;
  emit (EvNotificationRequest identifier categoryIdentifier
          "Time To Set Intention" "" "What do you want to do right now?").

Definition notify (title subtitle informativeText : string) : M World unit :=
  emit (EvNotificationRequest messageIdentifier "" title subtitle informativeText).

(** ** Comparisons of floats *)

Definition Qgt_bool (a b : Q) : bool := negb (Qle_bool a b).

(** ** The observer interface and its binding to the GUI *)

(** Modelled from the spec: the Observer contract of section 6, the five
    callbacks [Day.advanceToTime] invokes on the observer it is given. A
    callback runs on the observer and the world. *)
Class Observer (O : Type) := {
  breakStarting : Break -> M (O * World) unit;
  pomodoroStarting : DayRef -> Pomodoro -> M (O * World) unit;
  elapsedWithNoIntention : Pomodoro -> M (O * World) unit;
  progressUpdate : Interval -> Q -> IntentionResponse -> M (O * World) unit;
  dayOver : M (O * World) unit
}.

(** A function of the module, called from a method. *)
Definition inWorld {O A} (m : M World A) : M (O * World) A :=
  zoom snd (fun w s => (s.1, w)) m.

(** An assignment to the receiver. *)
Definition onSelf {O} (f : O -> O) : M (O * World) unit :=
  modify (fun s => (f s.1, s.2)).

Definition getSelf {O A} (f : O -> A) : M (O * World) A := gets (fun s => f s.1).

Section MacPomObserverMethods.

(** [math.sin] *)
Variable sin : Q -> Q.

Definition onProgressView (f : BigProgressView -> BigProgressView) (self : MacPomObserver) :=
  {| progressView := f (progressView self); window := window self;
     lastThreshold := lastThreshold self; active := active self |}.

Definition onWindow (f : HUDWindow -> HUDWindow) (self : MacPomObserver) :=
  {| progressView := progressView self; window := f (window self);
     lastThreshold := lastThreshold self; active := active self |}.

Definition setLastThreshold (x : Q) (self : MacPomObserver) :=
  {| progressView := progressView self; window := window self;
     lastThreshold := x; active := active self |}.

Definition setActive (b : bool) (self : MacPomObserver) :=
  {| progressView := progressView self; window := window self;
     lastThreshold := lastThreshold self; active := b |}.

Definition bool_str (b : bool) : string := if b then "True" else "False".

Definition MacPomObserver_post_init : M (MacPomObserver * World) unit :=
  isActive ← getSelf active;
  inWorld (print ("post-init " +:+ bool_str isActive));;
  onSelf (onWindow (setIsVisible_ isActive)).

Definition MacPomObserver_setWindow (newWindow : HUDWindow)
  : M (MacPomObserver * World) unit :=
  onSelf (onWindow (fun _ => newWindow));;
  isActive ← getSelf active;
  inWorld (print ("set-window " +:+ bool_str isActive));;
  onSelf (onWindow (setIsVisible_ isActive)).

Definition MacPomObserver_breakStarting (startingBreak : Break)
  : M (MacPomObserver * World) unit :=
  inWorld (print "break start");;
  onSelf (setActive true);;
  onSelf (onWindow (setIsVisible_ true));;
  inWorld (notify "Starting Break" "Take it easy for a while." "").

Definition MacPomObserver_pomodoroStarting (day : DayRef) (startingPomodoro : Pomodoro)
  : M (MacPomObserver * World) unit :=
  inWorld (print "pom start");;
  onSelf (setActive true);;
  onSelf (setLastThreshold 0);;
  onSelf (onWindow (setIsVisible_ true));;
  inWorld (askForIntent (LambdaExpressIntention day)).

Definition MacPomObserver_elapsedWithNoIntention (pomodoro : Pomodoro)
  : M (MacPomObserver * World) unit :=
  inWorld (notify "Pomodoro Failed" ""
             "The pomodoro elapsed with no intention specified.").

(** The loop over [thresholds] in [progressUpdate]. *)
Fixpoint remind (ths : list (Q * string)) (percentageElapsed : Q) (description : string)
  : M (MacPomObserver * World) unit :=
  match ths with
  | [] => mret tt
  | (pct, message) :: rest =>
      last ← getSelf lastThreshold;
      (if Qle_bool last pct && Qgt_bool percentageElapsed pct then
         onSelf (setLastThreshold percentageElapsed);;
         inWorld (notify "Remember Your Intention" message
                    (ldquo +:+ description +:+ rdquo))
       else mret tt);;
      remind rest percentageElapsed description
  end.

Definition MacPomObserver_progressUpdate
  (interval : Interval) (percentageElapsed : Q) (canSetIntention : IntentionResponse)
  : M (MacPomObserver * World) unit :=
  let baseAlphaValue := 0.15%Q in
  let alphaVariance := 0.015%Q in
  let pulseMultiplier := 1.5%Q in
  '(baseAlphaValue, alphaVariance, pulseMultiplier) ←
    (if decide (canSetIntention = CanBeSet) then
       onSelf (onProgressView (setLeftColor_ yellowColor));;
       onSelf (onProgressView (setRightColor_ purpleColor));;
       mret (baseAlphaValue + 0.1, alphaVariance * 2, pulseMultiplier * 2)%Q
     else mret (baseAlphaValue, alphaVariance, pulseMultiplier));
  '(alphaVariance, pulseMultiplier) ←
    (if decide (canSetIntention = AlreadySet) then
       onSelf (onProgressView (setLeftColor_ greenColor));;
       onSelf (onProgressView (setRightColor_ blueColor));;
       match interval with
       | IPomodoro p =>
           match intention p with
           | Some i => remind thresholds percentageElapsed (description i)
           | None => mret tt
           end
       | IBreak _ => mret tt
       end;;
       mret (alphaVariance, pulseMultiplier)
     else if decide (canSetIntention = OnBreak) then
       onSelf (onProgressView (setLeftColor_ lightGrayColor));;
       onSelf (onProgressView (setRightColor_ darkGrayColor));;
       mret (alphaVariance / 2, pulseMultiplier / 2)%Q
     else if decide (canSetIntention = TooLate) then
       onSelf (onProgressView (setLeftColor_ orangeColor));;
       onSelf (onProgressView (setRightColor_ redColor));;
       mret (alphaVariance, pulseMultiplier)
     else mret (alphaVariance, pulseMultiplier));
  onSelf (onProgressView (setPercentage_ percentageElapsed));;
  rawSeconds ← inWorld (gets (fun w => secondsOf (clock w)));
  let alphaValue := (sin (rawSeconds * pulseMultiplier) * alphaVariance + baseAlphaValue)%Q in
  onSelf (setActive true);;
  onSelf (onWindow (setIsVisible_ true));;
  onSelf (onWindow (setAlphaValue_ alphaValue)).

Definition MacPomObserver_dayOver : M (MacPomObserver * World) unit :=
  onSelf (setActive false);;
  inWorld (print "The day is over. Goodbye.");;
  onSelf (onWindow (setIsVisible_ false)).

#[export] Instance MacPomObserver_Observer : Observer MacPomObserver := {
  breakStarting := MacPomObserver_breakStarting;
  pomodoroStarting := MacPomObserver_pomodoroStarting;
  elapsedWithNoIntention := MacPomObserver_elapsedWithNoIntention;
  progressUpdate := MacPomObserver_progressUpdate;
  dayOver := MacPomObserver_dayOver
}.

End MacPomObserverMethods.

(** ** mac_gui.py: the driver *)

(** [str.title()] on ASCII text: a letter is upper case after a character
    that is not a letter, lower case after a letter. *)
Definition isLower (c : Ascii.ascii) : bool :=
  (97 <=? Ascii.nat_of_ascii c)%nat && (Ascii.nat_of_ascii c <=? 122)%nat.
Definition isUpper (c : Ascii.ascii) : bool :=
  (65 <=? Ascii.nat_of_ascii c)%nat && (Ascii.nat_of_ascii c <=? 90)%nat.
Definition toUpper (c : Ascii.ascii) : Ascii.ascii :=
  if isLower c then Ascii.ascii_of_nat (Ascii.nat_of_ascii c - 32) else c.
Definition toLower (c : Ascii.ascii) : Ascii.ascii :=
  if isUpper c then Ascii.ascii_of_nat (Ascii.nat_of_ascii c + 32) else c.

Fixpoint titleFrom (afterLetter : bool) (s : string) : string :=
  match s with
  | EmptyString => EmptyString
  | String c rest =>
      String (if afterLetter then toLower c else toUpper c)
             (titleFrom (isLower c || isUpper c) rest)
  end.
Definition str_title (s : string) : string := titleFrom false s.

(** [thisAndPreviousPoms]: the Pomodoro objects the generator yields, each
    with the place the day holds it at. *)
Definition pomodorosOf (xs : list (PomRef * Interval)) : list (PomRef * Pomodoro) :=
  omap (fun '(r, x) => (fun p => (r, p)) <$> pomOfInterval x) xs.

Definition thisAndPreviousPoms (day : Day) : list (PomRef * Pomodoro) :=
  match pendingIntervals day with
  | currentInterval :: _ => pomodorosOf [(InPending 0, currentInterval)]
  | [] => []
  end
  ++ pomodorosOf (reverse (imap (fun i x => (InElapsed i, x)) (elapsedIntervals day))).

(** What a [LoopingCall] is given to call: the program makes one, of the
    closure [update]. *)
Inductive Callable :=
| UpdateClosure.

(** [twisted.internet.task.LoopingCall]: its function, its interval once
    started, and whether it is running. *)
Record LoopingCall := {
  f : Callable;
  interval : option Q;
  running : bool
}.

(** The dataclass [DayManager]. Its [window] and [progress] fields are the
    very objects the observer holds as [window] and [progressView]; they
    are reached through [observer]. *)
Record DayManager := {
  observer : MacPomObserver;
  day : DayRef;
  loopingCall : option LoopingCall
}.

Definition setObserver (o : MacPomObserver) (self : DayManager) : DayManager :=
  {| observer := o; day := day self; loopingCall := loopingCall self |}.
Definition setDay (r : DayRef) (self : DayManager) : DayManager :=
  {| observer := observer self; day := r; loopingCall := loopingCall self |}.
Definition setLoopingCall (lc : option LoopingCall) (self : DayManager) : DayManager :=
  {| observer := observer self; day := day self; loopingCall := lc |}.

(** A method of [self.observer], called from a method of the manager. *)
Definition onObserver {A} (m : M (MacPomObserver * World) A) : M (DayManager * World) A :=
  zoom (fun s => (observer s.1, s.2)) (fun t s => (setObserver t.1 s.1, t.2)) m.

Definition NSAlertFirstButtonReturn : Z := 1000.

Module MacGui.
Section Driver.

Variable sin : Q -> Q.

(** The entry points of [pommodel.Day]. The module is not among the
    sources: each is a parameter here, a function of the day it is called
    on that returns or raises and leaves the day as it mutated it. *)
Variable Day_expressIntention : datetime -> string -> Day -> Outcome IntentionResponse * Day.
Variable Day_evaluateIntention : PomRef -> bool -> Day -> Outcome unit * Day.
Variable Day_bonusPomodoro : datetime -> Day -> Outcome unit * Day.
Variable Day_successfulPomodoros : Day -> Outcome (list Pomodoro).
Variable Day_failedPomodoros : Day -> Outcome (list Pomodoro).
Variable Day_unEvaluatedPomodoros : Day -> Outcome (list Pomodoro).
Variable Day_pendingPomodoros : Day -> Outcome (list Pomodoro).

(** [Day.advanceToTime(now, observer)]: it works on the day it is called
    on, the observer it is given and, through the observer's callbacks, the
    world. *)
Variable Day_advanceToTime :
  forall O : Type, Observer O -> datetime -> DayRef -> M (O * World) unit.

(** [pomodouroboros.storage]: what loading gives depends on the files. *)
Variable TEST_MODE : bool.
Variable Day_forTesting : World -> Outcome Day.
Variable loadOrCreateDay : date -> World -> Outcome Day.

(** [NSAlert.runModal()]: the button the user ends the dialog with and
    the text of the field then. *)
Variable runModal : World -> Outcome (Z * string).

(** A call of a method of the day [day] refers to. *)
Definition callDay {A} (day : DayRef) (call : DayCall)
  (method : Day -> Outcome A * Day) : M World A :=
  emit (EvDayCall day call);;
  d ← readDay day;
  let '(r, d') := method d in
  writeDay day d';;
  liftOutcome r.

Definition saveDay (day : DayRef) : M World unit :=
  d ← readDay day;
  emit (EvSaveDay day d).

Definition getString (title question defaultValue : string) : M World string :=
  '(response, stringValue) ← (fun w => (runModal w, w));
  if decide (response = NSAlertFirstButtonReturn) then mret stringValue
  else mret "".

Definition expressIntention (day : DayRef) (newIntention : string) : M World unit :=
  present ← now;
  intentionResult ← callDay day (Call_expressIntention present newIntention)
                      (Day_expressIntention present newIntention);
  print ("IR " +:+ IntentionResponse_str intentionResult);;
  (if decide (intentionResult = WasSet) then
     notify "Intention Set" (ldquo +:+ newIntention +:+ rdquo) ""
   else if decide (intentionResult = AlreadySet) then
     d ← readDay day;
     head ← orRaise IndexError (pendingIntervals d !! 0%nat);
     p ← orRaise AttributeError (pomOfInterval head);
     i ← orRaise AttributeError (intention p);
     notify "Intention Not Set" "Already Specified"
       ("intention was already: " +:+ ldquo +:+ description i +:+ rdquo)
   else if decide (intentionResult = TooLate) then
     notify "Intention Not Set" "Too Late"
       "It's too late to set an intention. Try again next time!"
   else if decide (intentionResult = OnBreak) then
     notify "Intention Not Set" "You're On Break"
       "Set the intention when the pom begins."
   else
     notify "Intention Confusion" "Internal Error"
       ("received " +:+ IntentionResponse_str intentionResult);;
     print ("very surprised: " +:+ IntentionResponse_str intentionResult));;
  print "saving day";;
  saveDay day;;
  print "saved".

Definition setIntention (day : DayRef) : M World unit :=
  tryExcept
    (newIntention ← getString "Set An Intention" "What is your intention?" "";
     print "String Get";;
     expressIntention day newIntention)
    (fun e => print (getTraceback e)).

(** What [theDelegate] does with the user's answer to a notification: the
    stored callable is taken out and called with the text. *)
Definition runHandler (h : Handler) (userText : string) : M World unit :=
  match h with
  | LambdaExpressIntention day => expressIntention day userText
  end.

Definition didReceiveNotificationResponse (identifier : string) (userText : option string)
  : M World unit :=
  handler ← gets (fun w => handlers w !! identifier);
  modify (fun w => setHandlers (delete identifier (handlers w)) w);;
  match handler with
  | None => print "no handler"
  | Some h =>
      match userText with
      | Some userText =>
          print ("received response " +:+ userText);;
          runHandler h userText
      | None => print "fail?"
      end
  end.

Definition bonus (when : datetime) (day : DayRef) : M World unit :=
  callDay day (Call_bonusPomodoro when) (Day_bonusPomodoro when);;
  saveDay day.

(** [newDay]: the object it returns is new. The date is printed as its
    day number. *)
Definition newDay (forDate : date) : M World DayRef :=
  if TEST_MODE then
    print "Creating testing day";;
    d ← (fun w => (Day_forTesting w, w));
    allocDay d
  else
    print ("New production-mode date " +:+ pretty forDate);;
    d ← (fun w => (loadOrCreateDay forDate w, w));
    allocDay d.

Definition labelForDay (day : Day) : M World string :=
  successful ← liftOutcome (Day_successfulPomodoros day);
  let success := length successful in
  failures ← liftOutcome (Day_failedPomodoros day);
  let failed := length failures in
  unEvaluated ← liftOutcome (Day_unEvaluatedPomodoros day);
  let mystery := length unEvaluated in
  pending ← liftOutcome (Day_pendingPomodoros day);
  let unfinished := length pending in
  let icon := if decide (failed < success)%nat then tomato else can in
  let title := icon +:+ ": " in
  let title := title +:+ pretty success +:+ checkMark +:+ " " in
  let title := title +:+ pretty failed +:+ ballotX +:+ " " in
  let title := if decide (mystery = 0%nat) then title
               else title +:+ pretty mystery +:+ "? " in
  let title := title +:+ pretty unfinished +:+ ellipsis in
  mret title.

(** [DayManager.setSuccess]: the body of [if idx == -index], up to its
    [return]. *)
Definition judge (self : DayManager) (succeeded : bool) (ref : PomRef) (aPom : Pomodoro)
  : M World unit :=
  match intention aPom with
  | None =>
      notify "Intention Not Set" "Automatic Failure" "Set an intention next time!"
  | Some i =>
      match wasSuccessful i with
      | Some verdict =>
          let adjective := if verdict then "successful" else "failed" in
          notify "Success Previously Set" ""
            ("Pomodoro Already " +:+ adjective +:+ ".")
      | None =>
          callDay (day self) (Call_evaluateIntention ref succeeded)
            (Day_evaluateIntention ref succeeded);;
          d ← readDay (day self);
          aPom ← orRaise AttributeError (derefPom d ref);
          i ← orRaise AttributeError (intention aPom);
          let adjective :=
            if default false (wasSuccessful i) then "successful" else "failed" in
          let noun :=
            if default false (wasSuccessful i) then "success" else "failure" in
          notify (str_title ("pomodoro " +:+ noun)) ""
            ("Marked Pomodoro " +:+ adjective +:+ ".")
      end
  end.

(** The [for idx, aPom in enumerate(...)] loop, from [idx] on. *)
Fixpoint setSuccessFrom (self : DayManager) (succeeded : bool) (index : Z)
  (idx : Z) (poms : list (PomRef * Pomodoro)) : M World unit :=
  match poms with
  | [] => mret tt
  | (ref, aPom) :: rest =>
      if decide (idx = - index) then judge self succeeded ref aPom
      else setSuccessFrom self succeeded index (idx + 1) rest
  end.

Definition setSuccess (self : DayManager) (succeeded : bool) (index : Z) : M World unit :=
  d ← readDay (day self);
  setSuccessFrom self succeeded index 0 (thisAndPreviousPoms d).

(** The closure [update] of [DayManager.start]. Its [try] block is the
    reading of the clock, then [rollover] (the [if] on the dates), then
    [advanceAndLabel] (the two statements after it). *)
Definition rollover (present : datetime) : M (DayManager * World) unit :=
  selfDay ← getSelf day;
  d ← inWorld (readDay selfDay);
  if decide (dateOf present ≠ dateOf (startTime d)) then
    forDate ← inWorld today;
    r ← inWorld (newDay forDate);
    onSelf (setDay r)
  else mret tt.

Definition advanceAndLabel (present : datetime) : M (DayManager * World) unit :=
  selfDay ← getSelf day;
  selfObserver ← getSelf observer;
  inWorld (emit (EvDayCall selfDay (Call_advanceToTime present selfObserver)));;
  onObserver (Day_advanceToTime MacPomObserver (MacPomObserver_Observer sin)
                present selfDay);;
  selfDay ← getSelf day;
  d ← inWorld (readDay selfDay);
  title ← inWorld (labelForDay d);
  inWorld (emit (EvSetTitle title)).

Definition printTraceback (e : BaseException) : M (DayManager * World) unit :=
  inWorld (print (getTraceback e)).

Definition update : M (DayManager * World) unit :=
  tryExcept
    (present ← inWorld now;
     rollover present;;
     advanceAndLabel present)
    printTraceback.

Definition call (c : Callable) : M (DayManager * World) unit :=
  match c with
  | UpdateClosure => update
  end.

(** [twisted.internet.task.LoopingCall], as far as the driver relies on
    it: a call of the scheduled function; if it raises, the loop stops. *)
Definition LoopingCall_call : M (DayManager * World) unit :=
  lc ← getSelf loopingCall;
  match lc with
  | Some lc =>
      if running lc then
        tryExcept (call (f lc))
          (fun _ => onSelf (setLoopingCall
                              (Some {| f := f lc; interval := interval lc;
                                       running := false |})))
      else mret tt
  | None => mret tt
  end.

(** [LoopingCall.start(interval)]: the loop runs from now on, and the
    first call is made at once. *)
Definition LoopingCall_start (seconds : Q) : M (DayManager * World) unit :=
  lc ← getSelf loopingCall;
  match lc with
  | Some lc =>
      onSelf (setLoopingCall
                (Some {| f := f lc; interval := Some seconds; running := true |}));;
      LoopingCall_call
  | None => raise AttributeError
  end.

Definition start : M (DayManager * World) unit :=
  inWorld (emit (EvStatusMenu can
    [ ("Intention", ActSetIntention);
      ("Bonus Pomodoro", ActBonus);
      ("Previous was successful", ActSetSuccess true (-1));
      ("This is successful", ActSetSuccess true 0);
      ("Failed previous", ActSetSuccess false (-1));
      ("Oops, failed this one", ActSetSuccess false 0);
      ("Quit", ActQuit) ]));;
  onSelf (setLoopingCall
            (Some {| f := UpdateClosure; interval := None; running := false |}));;
  LoopingCall_start (1.0 / 10.0)%Q.

(** The reactor: at each of the given times, in turn, the looping call
    comes due. *)
Fixpoint runTicks (times : list datetime) : M (DayManager * World) unit :=
  match times with
  | [] => mret tt
  | t :: rest =>
      modify (fun s => (s.1, setClock t s.2));;
      LoopingCall_call;;
      runTicks rest
  end.


End Driver.
End MacGui.
Export MacGui.

(** ** The scheduler's intention operations, from the specification *)

Module Spec.

(** An intention with its verdict set. *)
Definition judged (i : Intention) (succeeded : bool) : Intention :=
  {| description := description i; wasSuccessful := Some succeeded |}.

(** Modelled from the spec: [Day.evaluateIntention(pomodoro, succeeded)]
    of [pommodel] (section 4.3, section 7): an error is signalled if the
    Pomodoro has no Intention or its verdict is already set, and nothing is
    mutated then; otherwise the verdict is set. *)
Definition evaluateIntention (pom : PomRef) (succeeded : bool) (day : Day)
  : Outcome unit * Day :=
  match derefPom day pom with
  | None => (Raised (Exception "not a pomodoro of this day"), day)
  | Some p =>
      match intention p with
      | None => (Raised (Exception "no intention to evaluate"), day)
      | Some i =>
          match wasSuccessful i with
          | Some _ => (Raised (Exception "intention already evaluated"), day)
          | None =>
              (Returned tt, storePom day pom (withIntention p (Some (judged i succeeded))))
          end
      end
  end.

(** Modelled from the spec: [Day.expressIntention(now, text)] of
    [pommodel] (section 4.2). The acceptance window is left open by the
    specification (section 9) and is a parameter; with no pending interval
    the response is the day-over one, [TooLate] (sections 4.1 and 7). *)
Definition expressIntention (accepts : Pomodoro -> datetime -> bool)
  (now : datetime) (text : string) (day : Day) : Outcome IntentionResponse * Day :=
  match pendingIntervals day with
  | [] => (Returned TooLate, day)
  | IBreak _ :: _ => (Returned OnBreak, day)
  | IPomodoro p :: rest =>
      match intention p with
      | Some _ => (Returned AlreadySet, day)
      | None =>
          if accepts p now then
            (Returned WasSet,
             storePom day (InPending 0)
               (withIntention p (Some {| description := text; wasSuccessful := None |})))
          else (Returned TooLate, day)
      end
  end.

End Spec.

(** ** What the properties speak of *)

(** The Pomodoros of the elapsed intervals, oldest first, each with its
    place. *)
Definition elapsedPoms (d : Day) : list (PomRef * Pomodoro) :=
  pomodorosOf (imap (fun i x => (InElapsed i, x)) (elapsedIntervals d)).

(** A request made by [notify]. *)
Definition isNotify (e : Event) : bool :=
  match e with
  | EvNotificationRequest identifier _ _ _ _ => bool_decide (identifier = messageIdentifier)
  | _ => false
  end.

Definition isSaveDay (e : Event) : bool :=
  match e with
  | EvSaveDay _ _ => true
  | _ => false
  end.

Definition isDayCall (e : Event) : bool :=
  match e with
  | EvDayCall _ _ => true
  | _ => false
  end.

(** A reminder of the intention with the given message. *)
Definition isReminder (message : string) (e : Event) : bool :=
  match e with
  | EvNotificationRequest _ _ title subtitle _ =>
      bool_decide (title = "Remember Your Intention") && bool_decide (subtitle = message)
  | _ => false
  end.

Definition count (P : Event -> bool) (es : list Event) : nat :=
  length (filter (fun e => P e = true) es).

Definition isAdvanceCall (e : Event) : bool :=
  match e with
  | EvDayCall _ (Call_advanceToTime _ _) => true
  | _ => false
  end.

(** A call of the wrapper [expressIntention] has returned; since [w],
    the day [day] has become [d'], and the log has grown by one request
    made by [notify] and, after it, one save of the day, as [d']. *)
Definition notifiesOnceThenSaves (day : DayRef) (d' : Day) (w : World)
  (result : Outcome unit * World) : Prop :=
  exists before n between after,
    result =
    (Returned tt,
     appendLog (before ++ [n] ++ between ++ [EvSaveDay day d'] ++ after)
       (setDays (<[day := d']> (days w)) w))
    /\ isNotify n = true
    /\ count isNotify (before ++ between ++ [EvSaveDay day d'] ++ after) = 0%nat
    /\ count isSaveDay (before ++ [n] ++ between ++ after) = 0%nat.

(** ** Relating the state before and after a computation *)

(** Whatever the outcome, the state a computation leaves is related to the
    state it started from. *)
Definition preserves {S A} (R : relation S) (m : M S A) : Prop :=
  forall s, R s (m s).2.

(** The computation does not raise. *)
Definition returns {S A} (m : M S A) : Prop :=
  forall s, exists a, (m s).1 = Returned a.

(** The manager keeps what it has in a field. *)
Definition keeps {X} (field : DayManager -> X) : relation (DayManager * World) :=
  fun s s' => field s'.1 = field s.1.

(** The world's days are untouched and its log has only grown, by events
    that are not calls of the scheduler. *)
Definition noDayCall : relation World :=
  fun w w' =>
    days w' = days w
    /\ exists es, log w' = log w ++ es /\ count isDayCall es = 0%nat.

Definition noDayCallBy {O} : relation (O * World) :=
  fun s s' => noDayCall s.2 s'.2.

(** The log has only grown, by events that are not calls of
    [Day.advanceToTime]. *)
Definition noAdvanceCall : relation World :=
  fun w w' => exists es, log w' = log w ++ es /\ count isAdvanceCall es = 0%nat.

(** ** The reminders of a Pomodoro *)

(** What the loop over the thresholds does to [lastThreshold], and the
    messages of the reminders it posts, in order. *)
Fixpoint reminded (ths : list (Q * string)) (percentageElapsed last : Q) : Q * list string :=
  match ths with
  | [] => (last, [])
  | (pct, message) :: rest =>
      if Qle_bool last pct && Qgt_bool percentageElapsed pct then
        let '(last', messages) := reminded rest percentageElapsed percentageElapsed in
        (last', message :: messages)
      else reminded rest percentageElapsed last
  end.

Definition reminderEvent (text message : string) : Event :=
  EvNotificationRequest messageIdentifier "" "Remember Your Intention" message
    (ldquo +:+ text +:+ rdquo).

(** The intention [progressUpdate] reminds of, if it reminds at all: the
    response is [AlreadySet] and the interval is a Pomodoro with an
    intention. *)
Definition remindable (interval : Interval) (canSetIntention : IntentionResponse)
  : option string :=
  if decide (canSetIntention = AlreadySet) then
    match interval with
    | IPomodoro p => description <$> intention p
    | IBreak _ => None
    end
  else None.

(** What a call of [progressUpdate] does to [lastThreshold], and the
    reminders it posts. *)
Definition remindedBy (interval : Interval) (percentageElapsed : Q)
  (canSetIntention : IntentionResponse) (last : Q) : Q * list Event :=
  match remindable interval canSetIntention with
  | Some text =>
      let '(last', messages) := reminded thresholds percentageElapsed last in
      (last', reminderEvent text <$> messages)
  | None => (last, [])
  end.

(** The calls of [progressUpdate] the scheduler makes, one after the
    other. *)
Fixpoint progressUpdates (sin : Q -> Q) (calls : list (Interval * Q * IntentionResponse))
  : M (MacPomObserver * World) unit :=
  match calls with
  | [] => mret tt
  | (interval, percentageElapsed, canSetIntention) :: rest =>
      MacPomObserver_progressUpdate sin interval percentageElapsed canSetIntention;;
      progressUpdates sin rest
  end.

(** ** Concrete inputs *)

Definition samplePomodoro : Pomodoro :=
  {| intention := Some {| description := "write the report"; wasSuccessful := None |};
     pomStartTime := 0; pomEndTime := 1500000000 |}.

Definition sampleDay : Day :=
  {| startTime := 0;
     pendingIntervals :=
       [IPomodoro samplePomodoro;
        IBreak {| breakStartTime := 1500000000; breakEndTime := 1800000000 |}];
     elapsedIntervals := [] |}.

Definition sampleWorld : World :=
  {| clock := 5000000; days := {[ 0%nat := sampleDay ]}; handlers := ∅; log := [] |}.

Definition sampleObserver : MacPomObserver :=
  {| progressView := BigProgressView_init;
     window := {| isVisible := false; alphaValue := 0 |};
     lastThreshold := 0;
     active := false |}.

Definition sampleManager : DayManager :=
  {| observer := sampleObserver; day := 0%nat; loopingCall := None |}.

(** A scheduler that only tells its observer that the day is over. *)
Definition sampleAdvanceToTime (O : Type) (observer : Observer O)
  (now : datetime) (day : DayRef) : M (O * World) unit :=
  dayOver.

Definition noPomodoros (d : Day) : Outcome (list Pomodoro) := Returned [].

Definition sampleLoad (forDate : date) (w : World) : Outcome Day :=
  Returned {| startTime := forDate * microsecondsPerDay;
              pendingIntervals := []; elapsedIntervals := [] |}.

Definition sampleForTesting (w : World) : Outcome Day := sampleLoad 0 w.

(** The world of [sampleWorld], a day later. *)
Definition sampleTomorrow : World := setClock (microsecondsPerDay + 5000000) sampleWorld.

Definition sampleCalls : list (Interval * Q * IntentionResponse) :=
  [ (IPomodoro samplePomodoro, 0.1%Q, AlreadySet);
    (IPomodoro samplePomodoro, 0.3%Q, AlreadySet);
    (IPomodoro samplePomodoro, 0.4%Q, AlreadySet);
    (IPomodoro samplePomodoro, 0.8%Q, AlreadySet);
    (IPomodoro samplePomodoro, 0.99%Q, AlreadySet) ].

(** An afternoon: a Pomodoro judged a success, a break and a Pomodoro
    without intention have elapsed, and a break is current. *)
Definition sampleAfternoon : Day :=
  {| startTime := 0;
     pendingIntervals :=
       [IBreak {| breakStartTime := 3300000000; breakEndTime := 3600000000 |}];
     elapsedIntervals :=
       [IPomodoro {| intention := Some {| description := "write the report";
                                          wasSuccessful := Some true |};
                     pomStartTime := 0; pomEndTime := 1500000000 |};
        IBreak {| breakStartTime := 1500000000; breakEndTime := 1800000000 |};
        IPomodoro {| intention := None;
                     pomStartTime := 1800000000; pomEndTime := 3300000000 |}] |}.

Definition sampleAfternoonWorld : World :=
  {| clock := 3400000000; days := {[ 0%nat := sampleAfternoon ]};
     handlers := ∅; log := [] |}.

(** A scheduler that fails. *)
Definition failingAdvanceToTime (O : Type) (observer : Observer O)
  (now : datetime) (day : DayRef) : M (O * World) unit :=
  raise (Exception "advanceToTime failed").

(** The subtitles of the requests in a log. *)
Definition subtitles (es : list Event) : list string :=
  omap (fun e => match e with
                 | EvNotificationRequest _ _ _ subtitle _ => Some subtitle
                 | _ => None
                 end) es.

(** ** The rest of the driver *)

(** [makeOneWindow], as far as a [HUDWindow] is modelled: the window is
    given the alpha value 0.1 and ordered front, which shows it. *)
Definition makeOneWindow : HUDWindow :=
  {| isVisible := true; alphaValue := 0.1 |}.

(** [DayManager.recreateWindow]: the new window replaces the old one in
    the observer, and so in the manager, whose [window] is the
    observer's. The old window is closed; nothing refers to it any
    more. *)
Definition recreateWindow : M (DayManager * World) unit :=
  inWorld (print "screens changed");;
  let newWindow := makeOneWindow in
  onObserver (MacPomObserver_setWindow newWindow).

Section MoreDriver.

Variable TEST_MODE : bool.
Variable Day_forTesting : World -> Outcome Day.
Variable loadOrCreateDay : date -> World -> Outcome Day.

(** [DayManager.new]: the view and the window are made, the observer is
    made of them with the defaults of its other fields and runs its
    [__post_init__], and the manager is made, its [day] by the default
    factory [newDay(date.today())]. *)
Definition DayManager_new : M World DayManager :=
  let progressView := BigProgressView_init in
  let window := makeOneWindow in
  fun w =>
    let '(r, (observer, w)) :=
      MacPomObserver_post_init
        ({| progressView := progressView; window := window;
            lastThreshold := 0; active := false |}, w) in
    match r with
    | Raised e => (Raised e, w)
    | Returned _ =>
        (forDate ← today;
         day ← newDay TEST_MODE Day_forTesting loadOrCreateDay forDate;
         mret {| observer := observer; day := day; loopingCall := None |}) w
    end.

End MoreDriver.

(** The calls a scheduler, or a change of screens, makes on the observer,
    to run one after the other. *)
Inductive ObserverCall :=
| CallBreakStarting (startingBreak : Break)
| CallPomodoroStarting (day : DayRef) (startingPomodoro : Pomodoro)
| CallElapsedWithNoIntention (pomodoro : Pomodoro)
| CallProgressUpdate (interval : Interval) (percentageElapsed : Q)
    (canSetIntention : IntentionResponse)
| CallDayOver
| CallSetWindow (newWindow : HUDWindow).

Definition runObserverCall (sin : Q -> Q) (c : ObserverCall)
  : M (MacPomObserver * World) unit :=
  match c with
  | CallBreakStarting b => MacPomObserver_breakStarting b
  | CallPomodoroStarting day p => MacPomObserver_pomodoroStarting day p
  | CallElapsedWithNoIntention p => MacPomObserver_elapsedWithNoIntention p
  | CallProgressUpdate interval p r => MacPomObserver_progressUpdate sin interval p r
  | CallDayOver => MacPomObserver_dayOver
  | CallSetWindow newWindow => MacPomObserver_setWindow newWindow
  end.

Fixpoint runObserverCalls (sin : Q -> Q) (cs : list ObserverCall)
  : M (MacPomObserver * World) unit :=
  match cs with
  | [] => mret tt
  | c :: rest => runObserverCall sin c;; runObserverCalls sin rest
  end.

(** ** What the further properties speak of *)

(** The window shows exactly when the observer is active. *)
Definition shownIffActive (o : MacPomObserver) : Prop :=
  isVisible (window o) = active o.

(** Nothing but the day [day] has changed in the store, and neither the
    handlers nor the clock. *)
Definition onlyDay (day : DayRef) : relation World :=
  fun w w' =>
    clock w' = clock w
    /\ handlers w' = handlers w
    /\ forall r, r <> day -> days w' !! r = days w !! r.

(** The log has only grown, by events that are not saves. *)
Definition noSave : relation World :=
  fun w w' => exists es, log w' = log w ++ es /\ count isSaveDay es = 0%nat.

(** No handler has been added but, possibly, the one of [askForIntent]. *)
Definition oneHandlerSlot : relation World :=
  fun w w' => dom (handlers w') ⊆ dom (handlers w) ∪ {[ "ask-for-intent" ]}.

Definition oneHandlerSlotBy {O} : relation (O * World) :=
  fun s s' => oneHandlerSlot s.2 s'.2.

(** A threshold between [last] and [p]: one a progress update at [p]
    can remind of. *)
Definition crossed (last p pct : Q) : Prop := (last <= pct)%Q /\ (pct < p)%Q.

(** A text of decimal digits only, as [str(n)] is for a count [n]. *)
Definition isDigit (c : Ascii.ascii) : bool :=
  (48 <=? Ascii.nat_of_ascii c)%nat && (Ascii.nat_of_ascii c <=? 57)%nat.

Fixpoint allDigits (s : string) : bool :=
  match s with
  | EmptyString => true
  | String c rest => isDigit c && allDigits rest
  end.

(** * Properties *)

(** ** The log and the store *)

Lemma appendLog_appendLog es1 es2 w :
  appendLog es2 (appendLog es1 w) = appendLog (es1 ++ es2) w.
Proof. unfold appendLog. simpl. by rewrite <- (assoc_L (++)). Qed.

Lemma appendLog_nil w : appendLog [] w = w.
Proof. destruct w. unfold appendLog. simpl. by rewrite (right_id_L [] (++)). Qed.

Lemma setDays_appendLog ds es w :
  setDays ds (appendLog es w) = appendLog es (setDays ds w).
Proof. reflexivity. Qed.

Lemma count_app P es1 es2 : count P (es1 ++ es2) = (count P es1 + count P es2)%nat.
Proof. unfold count. by rewrite filter_app, length_app. Qed.

Lemma count_cons P e es :
  count P (e :: es) = ((if P e then 1 else 0) + count P es)%nat.
Proof.
  unfold count. rewrite filter_cons.
  destruct (P e); [by rewrite decide_True | by rewrite decide_False].
Qed.

(** ** The Pomodoro a menu entry judges *)

Lemma omap_reverse {A B} (g : A -> option B) (l : list A) :
  omap g (reverse l) = reverse (omap g l).
Proof.
  induction l as [|x l IH]; [done|].
  rewrite reverse_cons, omap_app, IH. simpl.
  destruct (g x); simpl; [by rewrite reverse_cons | by rewrite (right_id_L [] (++))].
Qed.

Lemma pomodorosOf_snd (xs : list (PomRef * Interval)) :
  (pomodorosOf xs).*2 = omap pomOfInterval xs.*2.
Proof.
  induction xs as [|[r x] xs IH]; [done|].
  unfold pomodorosOf at 1. simpl.
  destruct (pomOfInterval x); simpl; [f_equal|]; exact IH.
Qed.

Lemma imap_snd {A} (g : nat -> PomRef) (l : list A) :
  (imap (fun i x => (g i, x)) l).*2 = l.
Proof.
  revert g. induction l as [|x l IH]; intros g; [done|].
  simpl. f_equal. apply (IH (g ∘ S)).
Qed.

Lemma thisAndPreviousPoms_elapsedPoms d :
  thisAndPreviousPoms d =
  match pendingIntervals d with
  | IPomodoro p :: _ => [(InPending 0, p)]
  | _ => []
  end ++ reverse (elapsedPoms d).
Proof.
  unfold thisAndPreviousPoms, elapsedPoms, pomodorosOf.
  rewrite omap_reverse. f_equal.
  destruct (pendingIntervals d) as [|[p|b] rest]; reflexivity.
Qed.

Lemma pomodorosOf_deref_elapsed (l : list Interval) (k : nat) r p :
  (r, p) ∈ pomodorosOf (imap (fun i x => (InElapsed (k + i), x)) l) ->
  exists i, r = InElapsed (k + i) /\ l !! i = Some (IPomodoro p).
Proof.
  revert k. induction l as [|x l IH]; intros k Hin.
  - by apply elem_of_nil in Hin.
  - unfold pomodorosOf in Hin. simpl in Hin.
    assert (Hrest : (r, p) ∈ pomodorosOf (imap (fun i x => (InElapsed (S k + i), x)) l)
                    -> exists i, r = InElapsed (k + i) /\ (x :: l) !! i = Some (IPomodoro p)).
    { intros H. destruct (IH (S k) H) as (i & -> & Hi).
      exists (S i). split; [f_equal; lia | done]. }
    assert (Heq : imap ((fun i x => (InElapsed (k + i), x)) ∘ S) l
                  = imap (fun i x => (InElapsed (S k + i), x)) l).
    { apply imap_ext. intros i y _. simpl. do 2 f_equal. lia. }
    rewrite Heq in Hin.
    destruct x as [q|b]; simpl in Hin.
    + apply elem_of_cons in Hin as [Hhd|Htl].
      * inversion Hhd; subst. exists 0%nat. split; [f_equal; lia | done].
      * by apply Hrest.
    + by apply Hrest.
Qed.

(** Every yielded Pomodoro is the one the day holds at the yielded place. *)
Lemma thisAndPreviousPoms_deref d :
  Forall (fun rp => derefPom d rp.1 = Some rp.2) (thisAndPreviousPoms d).
Proof.
  apply Forall_forall. intros [r p] Hin. simpl.
  rewrite thisAndPreviousPoms_elapsedPoms in Hin.
  apply elem_of_app in Hin as [Hin|Hin].
  - destruct (pendingIntervals d) as [|[q|b] rest] eqn:E;
      try by apply elem_of_nil in Hin.
    apply list_elem_of_singleton in Hin. inversion Hin; subst.
    simpl. by rewrite E.
  - rewrite elem_of_reverse in Hin.
    destruct (pomodorosOf_deref_elapsed (elapsedIntervals d) 0 r p Hin) as (i & -> & Hi).
    simpl. by rewrite Hi.
Qed.

Section DriverFacts.

Variable Day_evaluateIntention : PomRef -> bool -> Day -> Outcome unit * Day.

(** The loop of [setSuccess] stops at position [-index] of what the
    generator yields, if there is such a position. *)
Lemma setSuccessFrom_lookup self succeeded index idx poms :
  setSuccessFrom Day_evaluateIntention self succeeded index idx poms =
  if decide (idx <= - index) then
    match poms !! Z.to_nat (- index - idx) with
    | Some (ref, aPom) => judge Day_evaluateIntention self succeeded ref aPom
    | None => mret tt
    end
  else mret tt.
Proof.
  revert idx. induction poms as [|[ref aPom] rest IH]; intros idx; simpl.
  - by destruct (decide (idx <= - index)).
  - destruct (decide (idx = - index)) as [->|Hne].
    + rewrite decide_True by lia. by replace (- index - - index) with 0 by lia.
    + rewrite IH. destruct (decide (idx <= - index)).
      * rewrite decide_True by lia.
        replace (Z.to_nat (- index - idx)) with (S (Z.to_nat (- index - (idx + 1)))) by lia.
        done.
      * by rewrite decide_False by lia.
Qed.

Lemma setSuccess_lookup self succeeded index w :
  setSuccess Day_evaluateIntention self succeeded index w =
  if decide (index <= 0) then
    match thisAndPreviousPoms (days w !!! day self) !! Z.to_nat (- index) with
    | Some (ref, aPom) => judge Day_evaluateIntention self succeeded ref aPom w
    | None => (Returned tt, w)
    end
  else (Returned tt, w).
Proof.
  unfold setSuccess. unfold mbind at 1, M_bind, readDay, gets.
  rewrite setSuccessFrom_lookup.
  destruct (decide (index <= 0)).
  - rewrite decide_True by lia. replace (- index - 0) with (- index) by lia.
    by destruct (_ !! _) as [[ref aPom]|].
  - by rewrite decide_False by lia.
Qed.

End DriverFacts.

Lemma elapsedPoms_snd d :
  (elapsedPoms d).*2 = omap pomOfInterval (elapsedIntervals d).
Proof. unfold elapsedPoms. by rewrite pomodorosOf_snd, (imap_snd InElapsed). Qed.

Lemma derefPom_storePom d ref p q :
  derefPom d ref = Some p -> derefPom (storePom d ref q) ref = Some q.
Proof.
  destruct ref as [i|i]; simpl; intros H.
  - destruct (pendingIntervals d !! i) as [x|] eqn:E; [|done].
    apply lookup_lt_Some in E. by rewrite list_lookup_insert_eq.
  - destruct (elapsedIntervals d !! i) as [x|] eqn:E; [|done].
    apply lookup_lt_Some in E. by rewrite list_lookup_insert_eq.
Qed.

(** C9. [thisAndPreviousPoms] yields the head of the pending intervals if
    it is a Pomodoro, then the elapsed Pomodoros, newest first, each as the
    object the day holds. So [setSuccess(succeeded, 0)] judges the pending
    Pomodoro when the current interval is one and otherwise (a Break, or
    nothing pending) the most recently elapsed Pomodoro, if any;
    [setSuccess(succeeded, -1)] judges the element one position later in
    what the generator yields. *)
Theorem thisAndPreviousPoms_targets
  (Day_evaluateIntention : PomRef -> bool -> Day -> Outcome unit * Day)
  (self : DayManager) (succeeded : bool) (w : World) :
  let d := days w !!! day self in
  (thisAndPreviousPoms d).*2 =
    option_list (head (pendingIntervals d) ≫= pomOfInterval)
    ++ reverse (omap pomOfInterval (elapsedIntervals d))
  /\ Forall (fun rp => derefPom d rp.1 = Some rp.2) (thisAndPreviousPoms d)
  /\ (elapsedPoms d).*2 = omap pomOfInterval (elapsedIntervals d)
  /\ setSuccess Day_evaluateIntention self succeeded 0 w =
       match pendingIntervals d with
       | IPomodoro p :: _ =>
           judge Day_evaluateIntention self succeeded (InPending 0) p w
       | _ =>
           match last (elapsedPoms d) with
           | Some (ref, p) => judge Day_evaluateIntention self succeeded ref p w
           | None => (Returned tt, w)
           end
       end
  /\ setSuccess Day_evaluateIntention self succeeded (-1) w =
       match thisAndPreviousPoms d !! 1%nat with
       | Some (ref, p) => judge Day_evaluateIntention self succeeded ref p w
       | None => (Returned tt, w)
       end.
Proof.
  intros d. split_and!.
  - rewrite thisAndPreviousPoms_elapsedPoms, fmap_app, fmap_reverse, elapsedPoms_snd.
    f_equal. by destruct (pendingIntervals d) as [|[p|b] rest].
  - apply thisAndPreviousPoms_deref.
  - apply elapsedPoms_snd.
  - rewrite setSuccess_lookup. fold d. simpl.
    rewrite thisAndPreviousPoms_elapsedPoms.
    destruct (pendingIntervals d) as [|[p|b] rest]; simpl; try done;
      by rewrite <- head_lookup, head_reverse.
  - rewrite setSuccess_lookup. by fold d.
Qed.

(** C1. [setSuccess] calls [Day.evaluateIntention] only on a Pomodoro that
    has an intention whose verdict is unset; there the call does not take
    its error branch. With no Pomodoro at the position nothing happens;
    with no intention, or a verdict already set, one notification is posted
    and no entry point of the day is called, whatever [evaluateIntention]
    is. In no case does [setSuccess] raise. *)
Theorem setSuccess_guards_evaluateIntention
  (Day_evaluateIntention : PomRef -> bool -> Day -> Outcome unit * Day)
  (self : DayManager) (succeeded : bool) (index : Z) (w : World) :
  let d := days w !!! day self in
  let target :=
    if decide (index <= 0) then thisAndPreviousPoms d !! Z.to_nat (- index)
    else None in
  match target with
  | None =>
      setSuccess Day_evaluateIntention self succeeded index w = (Returned tt, w)
  | Some (ref, aPom) =>
      match intention aPom with
      | None =>
          setSuccess Day_evaluateIntention self succeeded index w =
          (Returned tt,
           appendLog [EvNotificationRequest messageIdentifier "" "Intention Not Set"
                        "Automatic Failure" "Set an intention next time!"] w)
      | Some i =>
          match wasSuccessful i with
          | Some verdict =>
              setSuccess Day_evaluateIntention self succeeded index w =
              (Returned tt,
               appendLog [EvNotificationRequest messageIdentifier ""
                            "Success Previously Set" ""
                            ("Pomodoro Already "
                             +:+ (if verdict then "successful" else "failed") +:+ ".")] w)
          | None =>
              let d' := storePom d ref (withIntention aPom (Some (Spec.judged i succeeded))) in
              Spec.evaluateIntention ref succeeded d = (Returned tt, d')
              /\ setSuccess Spec.evaluateIntention self succeeded index w =
                 (Returned tt,
                  appendLog [EvNotificationRequest messageIdentifier ""
                               (if succeeded then "Pomodoro Success" else "Pomodoro Failure")
                               ""
                               ("Marked Pomodoro "
                                +:+ (if succeeded then "successful" else "failed") +:+ ".")]
                    (setDays (<[day self := d']> (days w))
                       (appendLog [EvDayCall (day self)
                                     (Call_evaluateIntention ref succeeded)] w)))
          end
      end
  end.
Proof.
  intros d target.
  pose proof (setSuccess_lookup Day_evaluateIntention self succeeded index w) as HE.
  pose proof (setSuccess_lookup Spec.evaluateIntention self succeeded index w) as HS.
  fold d in HE, HS. subst target.
  destruct (decide (index <= 0)); [|done].
  destruct (thisAndPreviousPoms d !! Z.to_nat (- index)) as [[ref aPom]|] eqn:Hlk; [|done].
  assert (Hderef : derefPom d ref = Some aPom).
  { pose proof (thisAndPreviousPoms_deref d) as HF.
    rewrite Forall_forall in HF. apply (HF (ref, aPom)).
    by eapply list_elem_of_lookup_2. }
  unfold judge in HE, HS.
  destruct (intention aPom) as [i|] eqn:Hi; [|done].
  destruct (wasSuccessful i) as [verdict|] eqn:Hv; [done|].
  assert (Heval : Spec.evaluateIntention ref succeeded d
                  = (Returned tt,
                     storePom d ref (withIntention aPom (Some (Spec.judged i succeeded))))).
  { unfold Spec.evaluateIntention. by rewrite Hderef, Hi, Hv. }
  split; [done|].
  rewrite HS. unfold callDay, mbind, M_bind, emit, modify, readDay, gets. simpl.
  fold d. rewrite Heval. simpl.
  rewrite lookup_total_insert_eq.
  rewrite (derefPom_storePom _ _ _ _ Hderef). simpl.
  by destruct succeeded.
Qed.

(** ** Expressing an intention *)

Lemma Spec_expressIntention_returns accepts now text d :
  exists r d', Spec.expressIntention accepts now text d = (Returned r, d').
Proof.
  unfold Spec.expressIntention.
  destruct (pendingIntervals d) as [|[p|b] rest]; eauto.
  destruct (intention p); eauto. destruct (accepts p now); eauto.
Qed.

(** [AlreadySet] is answered only for a day whose current interval is a
    Pomodoro that has an intention. *)
Lemma Spec_expressIntention_AlreadySet accepts now text d d' :
  Spec.expressIntention accepts now text d = (Returned AlreadySet, d') ->
  exists p i rest, pendingIntervals d' = IPomodoro p :: rest /\ intention p = Some i.
Proof.
  unfold Spec.expressIntention.
  destruct (pendingIntervals d) as [|[p|b] rest] eqn:E; try discriminate.
  destruct (intention p) as [i|] eqn:Hi.
  - intros [= <-]. eauto.
  - destruct (accepts p now); discriminate.
Qed.

Local Ltac finish_run :=
  split_and!;
  [ rewrite ?lookup_total_insert_eq, setDays_appendLog, !appendLog_appendLog;
    reflexivity
  | done.. ].

Lemma expressIntention_run
  (Day_expressIntention : datetime -> string -> Day -> Outcome IntentionResponse * Day)
  (day : DayRef) (newIntention : string) (w : World) (r : IntentionResponse) (d' : Day) :
  Day_expressIntention (clock w) newIntention (days w !!! day) = (Returned r, d') ->
  (r = AlreadySet ->
   exists p i rest, pendingIntervals d' = IPomodoro p :: rest /\ intention p = Some i) ->
  exists n surprise,
    expressIntention Day_expressIntention day newIntention w =
    (Returned tt,
     appendLog
       ([EvDayCall day (Call_expressIntention (clock w) newIntention);
         EvPrint ("IR " +:+ IntentionResponse_str r); n]
        ++ surprise ++ [EvPrint "saving day"; EvSaveDay day d'; EvPrint "saved"])
       (setDays (<[day := d']> (days w)) w))
    /\ isNotify n = true
    /\ count isNotify surprise = 0%nat /\ count isSaveDay surprise = 0%nat.
Proof.
  intros Hcall Hset.
  unfold expressIntention, callDay, now, print, notify, saveDay, emit, readDay,
    writeDay, modify, gets, mbind, M_bind, liftOutcome. simpl.
  rewrite Hcall. simpl.
  destruct r; simpl.
  - eexists _, [_]. rewrite lookup_total_insert_eq. finish_run.
  - destruct Hset as (p & i & rest & Hp & Hi); [done|].
    rewrite lookup_total_insert_eq, Hp. simpl. rewrite Hi. simpl.
    eexists _, []. finish_run.
  - eexists _, []. rewrite lookup_total_insert_eq. finish_run.
  - eexists _, []. rewrite lookup_total_insert_eq. finish_run.
  - eexists _, []. rewrite lookup_total_insert_eq. finish_run.
Qed.

Lemma expressIntention_any_scheduler
  (Day_expressIntention : datetime -> string -> Day -> Outcome IntentionResponse * Day)
  (day : DayRef) (newIntention : string) (w : World) (r : IntentionResponse) (d' : Day) :
  Day_expressIntention (clock w) newIntention (days w !!! day) = (Returned r, d') ->
  (r = AlreadySet ->
   exists p i rest, pendingIntervals d' = IPomodoro p :: rest /\ intention p = Some i) ->
  notifiesOnceThenSaves day d' w (expressIntention Day_expressIntention day newIntention w).
Proof.
  intros Hcall Hset.
  destruct (expressIntention_run _ day newIntention w r d' Hcall Hset)
    as (n & surprise & Hrun & Hn & Hq1 & Hq2).
  exists [EvDayCall day (Call_expressIntention (clock w) newIntention);
          EvPrint ("IR " +:+ IntentionResponse_str r)],
         n, (surprise ++ [EvPrint "saving day"]), [EvPrint "saved"].
  split_and!.
  - rewrite Hrun. do 2 f_equal. simpl. by rewrite <- !(assoc_L (++)).
  - done.
  - rewrite !count_app, Hq1. done.
  - rewrite !count_app, Hq2. destruct n; try done.
Qed.

(** C2. Whatever [IntentionResponse] [Day.expressIntention] returns
    ([WasSet], [AlreadySet], [TooLate], [OnBreak] or another), the wrapper
    [expressIntention] returns without raising, having made exactly one
    [notify] call and, after it, exactly one [saveDay] call, on the day as
    the scheduler left it. The answer [AlreadySet] is read as the scheduler
    gives it, for a current interval that is a Pomodoro with an intention;
    the scheduler of the specification always returns and gives it so. *)
Theorem expressIntention_notifies_once_then_saves :
  (forall Day_expressIntention day newIntention w r d',
     Day_expressIntention (clock w) newIntention (days w !!! day) = (Returned r, d') ->
     (r = AlreadySet ->
      exists p i rest, pendingIntervals d' = IPomodoro p :: rest /\ intention p = Some i) ->
     notifiesOnceThenSaves day d' w
       (expressIntention Day_expressIntention day newIntention w))
  /\ (forall accepts day newIntention w,
      exists r d',
        Spec.expressIntention accepts (clock w) newIntention (days w !!! day)
        = (Returned r, d')
        /\ notifiesOnceThenSaves day d' w
             (expressIntention (Spec.expressIntention accepts) day newIntention w)).
Proof.
  split.
  - intros E day newIntention w r d'. apply expressIntention_any_scheduler.
  - intros accepts day newIntention w.
    destruct (Spec_expressIntention_returns accepts (clock w) newIntention (days w !!! day))
      as (r & d' & Hcall).
    exists r, d'. split; [done|].
    apply (expressIntention_any_scheduler _ day newIntention w r d' Hcall).
    intros ->. by eapply Spec_expressIntention_AlreadySet.
Qed.

Lemma expressIntention_notifies_once_then_saves_witness :
  notifiesOnceThenSaves 0%nat sampleDay sampleWorld
    (expressIntention (Spec.expressIntention (fun _ _ => true)) 0%nat "again" sampleWorld).
Proof.
  apply (proj1 expressIntention_notifies_once_then_saves
           (Spec.expressIntention (fun _ _ => true)) 0%nat "again" sampleWorld
           AlreadySet sampleDay).
  - vm_compute. reflexivity.
  - intros _. exists samplePomodoro.
    eexists. eexists. split; reflexivity.
Defined.

(** ** Rules for [preserves] and [returns] *)

Section Rules.

Context {S : Type} (R : relation S) `{!PreOrder R}.

Lemma preserves_ret {A} (a : A) : preserves R (mret a).
Proof. intros s. simpl. reflexivity. Qed.

Lemma preserves_gets {A} (g : S -> A) : preserves R (gets g).
Proof. intros s. simpl. reflexivity. Qed.

Lemma preserves_raise {A} e : preserves R (raise (A:=A) e).
Proof. intros s. simpl. reflexivity. Qed.

Lemma preserves_liftOutcome {A} (o : Outcome A) : preserves R (liftOutcome o).
Proof. intros s. simpl. reflexivity. Qed.

Lemma preserves_orRaise {A} e (o : option A) : preserves R (orRaise e o).
Proof. destruct o; [apply preserves_ret | apply preserves_raise]. Qed.

Lemma preserves_oracle {A} (g : S -> Outcome A) : preserves R (fun s => (g s, s)).
Proof. intros s. simpl. reflexivity. Qed.

Lemma preserves_modify (g : S -> S) : (forall s, R s (g s)) -> preserves R (modify g).
Proof. intros H s. apply H. Qed.

Lemma preserves_bind {A B} (m : M S A) (k : A -> M S B) :
  preserves R m -> (forall a, preserves R (k a)) -> preserves R (m ≫= k).
Proof.
  intros Hm Hk s. unfold mbind, M_bind.
  specialize (Hm s). destruct (m s) as [[a|e] s1]; simpl in *; [|done].
  etransitivity; [exact Hm | apply Hk].
Qed.

Lemma preserves_tryExcept {A} (body : M S A) handler :
  preserves R body -> (forall e, preserves R (handler e)) ->
  preserves R (tryExcept body handler).
Proof.
  intros Hm Hk s. unfold tryExcept.
  specialize (Hm s). destruct (body s) as [[a|e] s1]; simpl in *; [done|].
  etransitivity; [exact Hm | apply Hk].
Qed.

Lemma preserves_zoom {T A} (R' : relation T) (part : S -> T) (upd : T -> S -> S)
  (m : M T A) :
  preserves R' m -> (forall s t, R' (part s) t -> R s (upd t s)) ->
  preserves R (zoom part upd m).
Proof.
  intros Hm Hup s. unfold zoom. specialize (Hm (part s)).
  destruct (m (part s)) as [r t]. simpl in *. by apply Hup.
Qed.

End Rules.

Lemma returns_ret {S A} (a : A) : returns (S:=S) (mret a).
Proof. intros s. by exists a. Qed.

Lemma returns_gets {S A} (g : S -> A) : returns (gets g).
Proof. intros s. by eexists. Qed.

Lemma returns_modify {S} (g : S -> S) : returns (modify g).
Proof. intros s. by eexists. Qed.

Lemma returns_zoom {S T A} (part : S -> T) (upd : T -> S -> S) (m : M T A) :
  returns m -> returns (zoom part upd m).
Proof.
  intros Hm s. unfold zoom. destruct (Hm (part s)) as [a Ha].
  destruct (m (part s)) as [r t]. simpl in *. by exists a.
Qed.

(** [try: ... except BaseException:] with a handler that does not raise
    does not raise, whatever its body does. *)
Lemma returns_tryExcept {S A} (body : M S A) handler :
  (forall e, returns (handler e)) -> returns (tryExcept body handler).
Proof.
  intros Hh s. unfold tryExcept.
  destruct (body s) as [[a|e] s1]; [by exists a | apply Hh].
Qed.

Create HintDb effects.
#[export] Hint Resolve preserves_ret preserves_gets preserves_raise
  preserves_liftOutcome preserves_orRaise preserves_oracle : effects.
#[export] Hint Extern 0 (PreOrder _) => apply _ : effects.
#[export] Hint Resolve returns_ret returns_gets returns_modify returns_zoom : effects.

(** ** The observer's callbacks leave the scheduler alone *)

#[export] Instance noDayCall_preorder : PreOrder noDayCall.
Proof.
  split.
  - intros w. split; [done|]. exists []. by rewrite (right_id_L [] (++)).
  - intros w1 w2 w3 [Hd1 (es1 & Hl1 & Hc1)] [Hd2 (es2 & Hl2 & Hc2)].
    split; [congruence|]. exists (es1 ++ es2).
    rewrite Hl2, Hl1, (assoc_L (++)), count_app, Hc1, Hc2. done.
Qed.

#[export] Instance noDayCallBy_preorder {O} : PreOrder (@noDayCallBy O).
Proof.
  split.
  - intros s. unfold noDayCallBy. reflexivity.
  - intros s1 s2 s3. unfold noDayCallBy. intros H1 H2. by etransitivity.
Qed.

Lemma emit_noDayCall e : isDayCall e = false -> preserves noDayCall (emit e).
Proof.
  intros He w. simpl. split; [done|]. exists [e]. split; [done|].
  by rewrite count_cons, He.
Qed.

Lemma print_noDayCall line : preserves noDayCall (print line).
Proof. by apply emit_noDayCall. Qed.

Lemma notify_noDayCall title subtitle informativeText :
  preserves noDayCall (notify title subtitle informativeText).
Proof. by apply emit_noDayCall. Qed.

Lemma askForIntent_noDayCall callback : preserves noDayCall (askForIntent callback).
Proof.
  unfold askForIntent. apply preserves_bind; [apply _| |intros _; by apply emit_noDayCall].
  apply preserves_modify. intros w. split; [done|].
  exists []. split; [|done]. simpl. by rewrite (right_id_L [] (++)).
Qed.

Lemma inWorld_noDayCall {O A} (m : M World A) :
  preserves noDayCall m -> preserves (@noDayCallBy O) (inWorld m).
Proof.
  intros Hm. unfold inWorld.
  apply (preserves_zoom _ noDayCall); [done|]. by intros s t H.
Qed.

Lemma onSelf_noDayCall {O} (g : O -> O) : preserves (@noDayCallBy O) (onSelf g).
Proof. intros s. unfold noDayCallBy. simpl. reflexivity. Qed.

Lemma getSelf_noDayCall {O A} (g : O -> A) : preserves (@noDayCallBy O) (getSelf g).
Proof. intros s. unfold noDayCallBy. simpl. reflexivity. Qed.

#[export] Hint Resolve print_noDayCall notify_noDayCall askForIntent_noDayCall
  inWorld_noDayCall onSelf_noDayCall getSelf_noDayCall : effects.

(** One step of a proof that a computation built from the pieces above
    preserves a relation. *)
Ltac effects_step :=
  match goal with
  | |- preserves _ (_ ≫= _) => apply preserves_bind; [apply _ | | intros ?]
  | |- preserves _ (let '(_, _) := ?x in _) => destruct x
  | |- preserves _ (if ?b then _ else _) => destruct b
  | |- preserves _ (match ?x with _ => _ end) => destruct x
  | |- preserves _ _ => solve [eauto with effects]
  end.

Lemma remind_noDayCall ths percentageElapsed text :
  preserves noDayCallBy (remind ths percentageElapsed text).
Proof.
  induction ths as [|[pct message] rest IH]; simpl.
  - eauto with effects.
  - repeat effects_step.
Qed.

#[export] Hint Resolve remind_noDayCall : effects.

(** C5. None of the five callbacks of [MacPomObserver] calls into the
    scheduler, directly or through [notify], [askForIntent] or the view and
    window updates: in whatever state a callback runs, it leaves every day
    as it was and adds to the log no call of an entry point of [Day].
    [pomodoroStarting] stores its callback for the notification centre and
    does not call it. *)
Theorem observer_callbacks_do_not_reenter (sin : Q -> Q) :
  let observer := MacPomObserver_Observer sin in
  (forall startingBreak, preserves noDayCallBy (breakStarting startingBreak))
  /\ (forall day startingPomodoro,
        preserves noDayCallBy (pomodoroStarting day startingPomodoro))
  /\ (forall pomodoro, preserves noDayCallBy (elapsedWithNoIntention pomodoro))
  /\ (forall interval percentageElapsed canSetIntention,
        preserves noDayCallBy (progressUpdate interval percentageElapsed canSetIntention))
  /\ preserves noDayCallBy dayOver
  /\ (forall day startingPomodoro s,
        handlers (pomodoroStarting day startingPomodoro s).2.2
        = <["ask-for-intent" := LambdaExpressIntention day]> (handlers s.2)).
Proof.
  intros observer. subst observer. simpl. split_and!.
  - intros b. unfold MacPomObserver_breakStarting. repeat effects_step.
  - intros day p. unfold MacPomObserver_pomodoroStarting. repeat effects_step.
  - intros p. unfold MacPomObserver_elapsedWithNoIntention. repeat effects_step.
  - intros interval p r. unfold MacPomObserver_progressUpdate. repeat effects_step.
  - unfold MacPomObserver_dayOver. repeat effects_step.
  - reflexivity.
Qed.

(** ** The periodic update *)

#[export] Instance keeps_preorder {X} (field : DayManager -> X) : PreOrder (keeps field).
Proof.
  split.
  - by intros s.
  - intros s1 s2 s3 H1 H2. unfold keeps in *. congruence.
Qed.

Lemma inWorld_keeps {X A} (field : DayManager -> X) (m : M World A) :
  preserves (keeps field) (inWorld m).
Proof. intros s. unfold inWorld, zoom, keeps. by destruct (m s.2). Qed.

Lemma getSelf_keeps {X A} (field : DayManager -> X) (g : DayManager -> A) :
  preserves (keeps field) (getSelf g).
Proof. by intros s. Qed.

Lemma onSelf_keeps {X} (field : DayManager -> X) (g : DayManager -> DayManager) :
  (forall self, field (g self) = field self) -> preserves (keeps field) (onSelf g).
Proof. intros H s. apply H. Qed.

Lemma onObserver_keeps {X A} (field : DayManager -> X) (m : M (MacPomObserver * World) A) :
  (forall o self, field (setObserver o self) = field self) ->
  preserves (keeps field) (onObserver m).
Proof.
  intros H s. unfold onObserver, zoom, keeps.
  destruct (m _) as [r t]. simpl. apply H.
Qed.

#[export] Hint Resolve inWorld_keeps getSelf_keeps : effects.

#[export] Instance noAdvanceCall_preorder : PreOrder noAdvanceCall.
Proof.
  split.
  - intros w. exists []. by rewrite (right_id_L [] (++)).
  - intros w1 w2 w3 (es1 & Hl1 & Hc1) (es2 & Hl2 & Hc2).
    exists (es1 ++ es2).
    rewrite Hl2, Hl1, (assoc_L (++)), count_app, Hc1, Hc2. done.
Qed.

Lemma emit_noAdvanceCall e : isAdvanceCall e = false -> preserves noAdvanceCall (emit e).
Proof.
  intros He w. exists [e]. split; [done|]. by rewrite count_cons, He.
Qed.

Lemma print_noAdvanceCall line : preserves noAdvanceCall (print line).
Proof. by apply emit_noAdvanceCall. Qed.

Lemma notify_noAdvanceCall title subtitle informativeText :
  preserves noAdvanceCall (notify title subtitle informativeText).
Proof. by apply emit_noAdvanceCall. Qed.

Lemma sameLog_noAdvanceCall (g : World -> World) :
  (forall w, log (g w) = log w) -> preserves noAdvanceCall (modify g).
Proof.
  intros H. apply preserves_modify. intros w. exists [].
  by rewrite H, (right_id_L [] (++)).
Qed.

Lemma readDay_noAdvanceCall day : preserves noAdvanceCall (readDay day).
Proof. apply preserves_gets. apply _. Qed.

Lemma writeDay_noAdvanceCall day d : preserves noAdvanceCall (writeDay day d).
Proof. by apply sameLog_noAdvanceCall. Qed.

#[export] Hint Resolve print_noAdvanceCall notify_noAdvanceCall readDay_noAdvanceCall
  writeDay_noAdvanceCall : effects.

Lemma callDay_noAdvanceCall {A} day c (method : Day -> Outcome A * Day) :
  isAdvanceCall (EvDayCall day c) = false -> preserves noAdvanceCall (callDay day c method).
Proof.
  intros Hc. unfold callDay. repeat effects_step. by apply emit_noAdvanceCall.
Qed.

Section Update.

Variable sin : Q -> Q.
Variable Day_successfulPomodoros : Day -> Outcome (list Pomodoro).
Variable Day_failedPomodoros : Day -> Outcome (list Pomodoro).
Variable Day_unEvaluatedPomodoros : Day -> Outcome (list Pomodoro).
Variable Day_pendingPomodoros : Day -> Outcome (list Pomodoro).
Variable Day_advanceToTime :
  forall O : Type, Observer O -> datetime -> DayRef -> M (O * World) unit.
Variable TEST_MODE : bool.
Variable Day_forTesting : World -> Outcome Day.
Variable loadOrCreateDay : date -> World -> Outcome Day.
Variable Day_expressIntention : datetime -> string -> Day -> Outcome IntentionResponse * Day.
Variable runModal : World -> Outcome (Z * string).
Variable Day_evaluateIntention : PomRef -> bool -> Day -> Outcome unit * Day.
Variable Day_bonusPomodoro : datetime -> Day -> Outcome unit * Day.

Local Abbreviation labelForDay :=
  (labelForDay Day_successfulPomodoros Day_failedPomodoros
     Day_unEvaluatedPomodoros Day_pendingPomodoros).
Local Abbreviation advanceAndLabel :=
  (advanceAndLabel sin Day_successfulPomodoros Day_failedPomodoros
     Day_unEvaluatedPomodoros Day_pendingPomodoros Day_advanceToTime).
Local Abbreviation newDay := (newDay TEST_MODE Day_forTesting loadOrCreateDay).
Local Abbreviation rollover := (rollover TEST_MODE Day_forTesting loadOrCreateDay).
Local Abbreviation update :=
  (update sin Day_successfulPomodoros Day_failedPomodoros
     Day_unEvaluatedPomodoros Day_pendingPomodoros Day_advanceToTime
     TEST_MODE Day_forTesting loadOrCreateDay).
Local Abbreviation call :=
  (call sin Day_successfulPomodoros Day_failedPomodoros
     Day_unEvaluatedPomodoros Day_pendingPomodoros Day_advanceToTime
     TEST_MODE Day_forTesting loadOrCreateDay).
Local Abbreviation LoopingCall_call :=
  (LoopingCall_call sin Day_successfulPomodoros Day_failedPomodoros
     Day_unEvaluatedPomodoros Day_pendingPomodoros Day_advanceToTime
     TEST_MODE Day_forTesting loadOrCreateDay).
Local Abbreviation LoopingCall_start :=
  (LoopingCall_start sin Day_successfulPomodoros Day_failedPomodoros
     Day_unEvaluatedPomodoros Day_pendingPomodoros Day_advanceToTime
     TEST_MODE Day_forTesting loadOrCreateDay).
Local Abbreviation start :=
  (start sin Day_successfulPomodoros Day_failedPomodoros
     Day_unEvaluatedPomodoros Day_pendingPomodoros Day_advanceToTime
     TEST_MODE Day_forTesting loadOrCreateDay).
Local Abbreviation setIntention := (setIntention Day_expressIntention runModal).
Local Abbreviation getString := (getString runModal).
Local Abbreviation expressIntention := (expressIntention Day_expressIntention).
Local Abbreviation setSuccess := (setSuccess Day_evaluateIntention).
Local Abbreviation bonus := (bonus Day_bonusPomodoro).
Local Abbreviation didReceiveNotificationResponse :=
  (didReceiveNotificationResponse Day_expressIntention).
Local Abbreviation runTicks :=
  (runTicks sin Day_successfulPomodoros Day_failedPomodoros
     Day_unEvaluatedPomodoros Day_pendingPomodoros Day_advanceToTime
     TEST_MODE Day_forTesting loadOrCreateDay).

(** The call of [Day.advanceToTime]: on the day the manager holds, with
    the manager's observer, bound to the scheduler's interface by
    [MacPomObserver_Observer]. *)
Lemma advanceAndLabel_calls present self w :
  advanceAndLabel present (self, w) =
  match Day_advanceToTime MacPomObserver (MacPomObserver_Observer sin) present (day self)
          (observer self,
           appendLog [EvDayCall (day self) (Call_advanceToTime present (observer self))] w)
  with
  | (Returned _, (o, w1)) =>
      (title ← inWorld (labelForDay (days w1 !!! day self));
       inWorld (emit (EvSetTitle title))) (setObserver o self, w1)
  | (Raised e, (o, w1)) => (Raised e, (setObserver o self, w1))
  end.
Proof.
  unfold MacGui.advanceAndLabel.
  unfold mbind at 1 2 3 4, M_bind, getSelf, gets, inWorld, emit, modify, zoom. simpl.
  unfold onObserver at 1, zoom. simpl.
  destruct (Day_advanceToTime _ _ _ _ _) as [[[]|e] [o w1]]; reflexivity.
Qed.

Lemma advanceAndLabel_keeps {X} (field : DayManager -> X) present :
  (forall o self, field (setObserver o self) = field self) ->
  preserves (keeps field) (advanceAndLabel present).
Proof.
  intros H. unfold MacGui.advanceAndLabel.
  repeat effects_step. by apply onObserver_keeps.
Qed.

Lemma printTraceback_keeps {X} (field : DayManager -> X) e :
  preserves (keeps field) (printTraceback e).
Proof. by intros [self w]. Qed.

Lemma rollover_keeps_loop present : preserves (keeps loopingCall) (rollover present).
Proof.
  unfold MacGui.rollover. repeat effects_step. by apply onSelf_keeps.
Qed.

Lemma update_keeps_loop : preserves (keeps loopingCall) update.
Proof.
  unfold MacGui.update. apply preserves_tryExcept; [apply _| |].
  - repeat effects_step; [apply rollover_keeps_loop | by apply advanceAndLabel_keeps].
  - intros e. apply printTraceback_keeps.
Qed.

Lemma update_returns : returns update.
Proof.
  unfold MacGui.update. apply returns_tryExcept. intros e s. by eexists.
Qed.

Lemma update_returns_tt s : (update s).1 = Returned tt.
Proof. destruct (update_returns s) as [[] H]. exact H. Qed.

Lemma update_run s :
  update s =
  match (present ← inWorld now; rollover present;; advanceAndLabel present) s with
  | (Returned _, s') => (Returned tt, s')
  | (Raised e, s') => (Returned tt, (s'.1, appendLog [EvPrint (getTraceback e)] s'.2))
  end.
Proof.
  unfold MacGui.update, tryExcept.
  match goal with
  | |- match ?b with _ => _ end = _ => destruct b as [[[]|e] [self' w']]
  end; reflexivity.
Qed.

Lemma LoopingCall_call_running lc self w :
  loopingCall self = Some lc -> running lc = true -> f lc = UpdateClosure ->
  LoopingCall_call (self, w) = update (self, w).
Proof.
  intros Hlc Hrun Hf. unfold MacGui.LoopingCall_call.
  unfold mbind, M_bind, getSelf, gets. simpl. rewrite Hlc, Hrun, Hf. simpl.
  unfold tryExcept. pose proof (update_returns_tt (self, w)) as H.
  by destruct (update (self, w)) as [[[]|e] s'].
Qed.

(** While the loop runs the function it was given, a tick is a call of
    [update], and the next tick finds the loop running. *)
Lemma runTicks_running times : forall lc self w,
  loopingCall self = Some lc -> running lc = true -> f lc = UpdateClosure ->
  runTicks times (self, w) =
  (Returned tt, foldl (fun s t => (update (s.1, setClock t s.2)).2) (self, w) times).
Proof.
  induction times as [|t rest IH]; intros lc self w Hlc Hrun Hf; [done|].
  simpl. unfold mbind at 1 2, M_bind, modify. simpl.
  rewrite (LoopingCall_call_running lc) by done.
  pose proof (update_returns_tt (self, setClock t w)) as Hret.
  pose proof (update_keeps_loop (self, setClock t w)) as Hkeep.
  destruct (update (self, setClock t w)) as [r [self' w']].
  unfold keeps in Hkeep. simpl in *. subst r.
  apply (IH lc); [congruence | done..].
Qed.

Lemma start_run self w :
  start (self, w) =
  update (setLoopingCall
            (Some {| f := UpdateClosure; interval := Some (1.0 / 10.0)%Q; running := true |})
            self,
          appendLog [EvStatusMenu can
            [ ("Intention", ActSetIntention);
              ("Bonus Pomodoro", ActBonus);
              ("Previous was successful", ActSetSuccess true (-1));
              ("This is successful", ActSetSuccess true 0);
              ("Failed previous", ActSetSuccess false (-1));
              ("Oops, failed this one", ActSetSuccess false 0);
              ("Quit", ActQuit) ]] w).
Proof.
  unfold MacGui.start, MacGui.LoopingCall_start.
  unfold mbind at 1 2 3 4, M_bind, inWorld, zoom, emit, modify, onSelf, getSelf, gets.
  simpl. erewrite LoopingCall_call_running by reflexivity. reflexivity.
Qed.

Lemma start_loop self w :
  (start (self, w)).1 = Returned tt
  /\ loopingCall (start (self, w)).2.1
     = Some {| f := UpdateClosure; interval := Some (1.0 / 10.0)%Q; running := true |}.
Proof.
  rewrite start_run. split; [apply update_returns_tt|].
  match goal with
  | |- context [update ?s] => exact (update_keeps_loop s)
  end.
Qed.

Lemma setIntention_run day w :
  setIntention day w =
  match (newIntention ← getString "Set An Intention" "What is your intention?" "";
         print "String Get";;
         expressIntention day newIntention) w with
  | (Returned _, w') => (Returned tt, w')
  | (Raised e, w') => (Returned tt, appendLog [EvPrint (getTraceback e)] w')
  end.
Proof.
  unfold MacGui.setIntention, tryExcept.
  match goal with
  | |- match ?b with _ => _ end = _ => destruct b as [[[]|e] w']
  end; reflexivity.
Qed.

(** C10. [update] catches whatever the rollover, [Day.advanceToTime] or
    the update of the status label raises, and only prints the traceback:
    it never raises. So, once [start] has started the loop, every tick of
    every sequence of ticks is a call of [update], whatever was raised in
    the ticks before it. [setIntention] likewise catches whatever the
    dialog or [expressIntention] raises. *)
Theorem update_and_setIntention_catch_every_exception :
  (forall s,
     update s =
     match (present ← inWorld now; rollover present;; advanceAndLabel present) s with
     | (Returned _, s') => (Returned tt, s')
     | (Raised e, s') => (Returned tt, (s'.1, appendLog [EvPrint (getTraceback e)] s'.2))
     end)
  /\ (forall times self w,
        runTicks times (start (self, w)).2 =
        (Returned tt,
         foldl (fun s t => (update (s.1, setClock t s.2)).2) (start (self, w)).2 times))
  /\ (forall times self w,
        (start (self, w)).1 = Returned tt
        /\ (running <$> loopingCall (runTicks times (start (self, w)).2).2.1) = Some true)
  /\ (forall day w,
        setIntention day w =
        match (newIntention ← getString "Set An Intention" "What is your intention?" "";
               print "String Get";;
               expressIntention day newIntention) w with
        | (Returned _, w') => (Returned tt, w')
        | (Raised e, w') => (Returned tt, appendLog [EvPrint (getTraceback e)] w')
        end).
Proof.
  split_and!.
  - apply update_run.
  - intros times self w. destruct (start_loop self w) as [_ Hlc].
    destruct (start (self, w)).2 as [self' w'] eqn:E. simpl in Hlc.
    by apply (runTicks_running times _ self' w' Hlc).
  - intros times self w. destruct (start_loop self w) as [Hret Hlc].
    split; [done|].
    destruct (start (self, w)).2 as [self' w'] eqn:E. simpl in Hlc.
    rewrite (runTicks_running times _ self' w' Hlc) by done. simpl.
    clear E Hret. revert self' w' Hlc.
    induction times as [|t rest IH]; intros self' w' Hlc; simpl.
    + by rewrite Hlc.
    + pose proof (update_keeps_loop (self', setClock t w')) as Hkeep.
      destruct (update (self', setClock t w')) as [r [self2 w2]]. simpl in *.
      apply IH. unfold keeps in Hkeep. simpl in Hkeep. congruence.
  - apply setIntention_run.
Qed.

Lemma newDay_returned forDate w r w1 :
  newDay forDate w = (Returned r, w1) ->
  r = fresh (dom (days w)) /\ (r ∉ dom (days w)) /\ is_Some (days w1 !! r).
Proof.
  unfold MacGui.newDay, print, emit, modify, allocDay, mbind, M_bind.
  destruct TEST_MODE; simpl.
  - destruct (Day_forTesting _) as [d|e]; [|discriminate].
    intros [= <- <-]. simpl. split_and!; [done|apply is_fresh|].
    by rewrite lookup_insert_eq.
  - destruct (loadOrCreateDay _ _) as [d|e]; [|discriminate].
    intros [= <- <-]. simpl. split_and!; [done|apply is_fresh|].
    by rewrite lookup_insert_eq.
Qed.

Lemma rollover_run present self w :
  rollover present (self, w) =
  if decide (dateOf present = dateOf (startTime (days w !!! day self))) then
    (Returned tt, (self, w))
  else
    match newDay (dateOf (clock w)) w with
    | (Returned r, w1) => (Returned tt, (setDay r self, w1))
    | (Raised e, w1) => (Raised e, (self, w1))
    end.
Proof.
  unfold MacGui.rollover.
  unfold mbind at 1 2, M_bind, getSelf, gets, inWorld, zoom, readDay. simpl.
  destruct (decide (dateOf present = _)) as [Heq|Hne].
  - by rewrite decide_False by (by intros H; apply H).
  - rewrite decide_True by done.
    unfold mbind at 1 2, M_bind, today, gets, onSelf, modify. simpl.
    by destruct (newDay _ w) as [[r|e] w1].
Qed.

Lemma update_unfold self w :
  update (self, w) =
  tryExcept (rollover (clock w);; advanceAndLabel (clock w)) printTraceback (self, w).
Proof. reflexivity. Qed.


(** When [newDay] raises, the tick ends there: the traceback is printed,
    the manager keeps the day it had, and the scheduler is not called. *)
Lemma update_when_newDay_raises self w e w1 :
  dateOf (clock w) <> dateOf (startTime (days w !!! day self)) ->
  newDay (dateOf (clock w)) w = (Raised e, w1) ->
  update (self, w) = (Returned tt, (self, appendLog [EvPrint (getTraceback e)] w1)).
Proof.
  intros Hdiff Hnew.
  rewrite update_unfold. unfold tryExcept at 1, mbind at 1, M_bind.
  rewrite rollover_run, decide_False by done. rewrite Hnew. reflexivity.
Qed.






Lemma saveDay_noAdvanceCall day : preserves noAdvanceCall (saveDay day).
Proof. unfold saveDay. repeat effects_step. by apply emit_noAdvanceCall. Qed.

Lemma expressIntention_noAdvanceCall day newIntention :
  preserves noAdvanceCall (expressIntention day newIntention).
Proof.
  unfold MacGui.expressIntention, now.
  repeat effects_step;
    solve [by apply callDay_noAdvanceCall | apply saveDay_noAdvanceCall].
Qed.

Lemma setIntention_noAdvanceCall day : preserves noAdvanceCall (setIntention day).
Proof.
  unfold MacGui.setIntention. apply preserves_tryExcept; [apply _| |].
  - unfold MacGui.getString. repeat effects_step.
    apply expressIntention_noAdvanceCall.
  - intros e. apply print_noAdvanceCall.
Qed.

Lemma judge_noAdvanceCall self succeeded ref aPom :
  preserves noAdvanceCall (judge Day_evaluateIntention self succeeded ref aPom).
Proof.
  unfold judge. repeat effects_step. by apply callDay_noAdvanceCall.
Qed.

Lemma setSuccess_noAdvanceCall self succeeded index :
  preserves noAdvanceCall (setSuccess self succeeded index).
Proof.
  unfold MacGui.setSuccess. apply preserves_bind; [apply _|eauto with effects|].
  intros d. generalize 0 (thisAndPreviousPoms d). intros idx poms. revert idx.
  induction poms as [|[ref aPom] rest IH]; intros idx; simpl.
  - eauto with effects.
  - destruct (decide (idx = - index)); [apply judge_noAdvanceCall | apply IH].
Qed.

Lemma bonus_noAdvanceCall when day : preserves noAdvanceCall (bonus when day).
Proof.
  unfold MacGui.bonus. repeat effects_step;
    solve [by apply callDay_noAdvanceCall | apply saveDay_noAdvanceCall].
Qed.

Lemma didReceiveNotificationResponse_noAdvanceCall identifier userText :
  preserves noAdvanceCall (didReceiveNotificationResponse identifier userText).
Proof.
  unfold MacGui.didReceiveNotificationResponse, runHandler.
  repeat effects_step;
    solve [by apply sameLog_noAdvanceCall | apply expressIntention_noAdvanceCall].
Qed.

Lemma rollover_keeps_observer present : preserves (keeps observer) (rollover present).
Proof.
  unfold MacGui.rollover. repeat effects_step. by apply onSelf_keeps.
Qed.

(** C6. [MacPomObserver] provides the five callbacks of the Observer
    contract, with the arguments the contract gives them, and it is what
    the driver passes to [Day.advanceToTime]: the one call, in [update], is
    made with the manager's observer, which the rollover before it leaves
    in place, bound to the contract by [MacPomObserver_Observer]; the other
    entry points of the driver make no call of [Day.advanceToTime]. *)
Theorem MacPomObserver_is_the_observer_passed :
  let contract := MacPomObserver_Observer sin in
  (breakStarting = MacPomObserver_breakStarting
   /\ pomodoroStarting = MacPomObserver_pomodoroStarting
   /\ elapsedWithNoIntention = MacPomObserver_elapsedWithNoIntention
   /\ progressUpdate = MacPomObserver_progressUpdate sin
   /\ dayOver = MacPomObserver_dayOver)
  /\ (forall present self w,
        advanceAndLabel present (self, w) =
        match Day_advanceToTime MacPomObserver contract present (day self)
                (observer self,
                 appendLog [EvDayCall (day self)
                              (Call_advanceToTime present (observer self))] w)
        with
        | (Returned _, (o, w1)) =>
            (title ← inWorld (labelForDay (days w1 !!! day self));
             inWorld (emit (EvSetTitle title))) (setObserver o self, w1)
        | (Raised e, (o, w1)) => (Raised e, (setObserver o self, w1))
        end)
  /\ (forall present, preserves (keeps observer) (rollover present))
  /\ (forall day, preserves noAdvanceCall (setIntention day))
  /\ (forall day newIntention, preserves noAdvanceCall (expressIntention day newIntention))
  /\ (forall identifier userText,
        preserves noAdvanceCall (didReceiveNotificationResponse identifier userText))
  /\ (forall when day, preserves noAdvanceCall (bonus when day))
  /\ (forall self succeeded index,
        preserves noAdvanceCall (setSuccess self succeeded index)).
Proof.
  intros contract. split_and!; try reflexivity.
  - apply advanceAndLabel_calls.
  - apply rollover_keeps_observer.
  - apply setIntention_noAdvanceCall.
  - apply expressIntention_noAdvanceCall.
  - apply didReceiveNotificationResponse_noAdvanceCall.
  - apply bonus_noAdvanceCall.
  - apply setSuccess_noAdvanceCall.
Qed.

End Update.

(** ** Progress updates: the bar and the reminders *)

Lemma Qgt_bool_iff a b : Qgt_bool a b = true <-> (b < a)%Q.
Proof.
  unfold Qgt_bool. rewrite negb_true_iff, <- not_true_iff_false, Qle_bool_iff.
  split; [apply Qnot_le_lt | apply Qlt_not_le].
Qed.

Lemma fires_iff last pct p :
  Qle_bool last pct && Qgt_bool p pct = true <-> (last <= pct)%Q /\ (pct < p)%Q.
Proof. by rewrite andb_true_iff, Qle_bool_iff, Qgt_bool_iff. Qed.

(** Once a reminder is posted at [p], no later threshold of the same
    update fires. *)
Lemma reminded_after_firing ths p : reminded ths p p = (p, []).
Proof.
  induction ths as [|[pct message] rest IH]; [done|]. simpl.
  destruct (Qle_bool p pct && Qgt_bool p pct) eqn:E; [|done].
  apply fires_iff in E as [H1 H2]. exfalso. lra.
Qed.

(** An update posts no reminder and leaves [lastThreshold], or posts one,
    for the first threshold between [lastThreshold] and the percentage,
    and sets [lastThreshold] to the percentage. *)
Lemma reminded_cases ths p last :
  reminded ths p last = (last, [])
  \/ exists pct message,
       (pct, message) ∈ ths /\ (last <= pct)%Q /\ (pct < p)%Q
       /\ reminded ths p last = (p, [message]).
Proof.
  induction ths as [|[pct message] rest IH]; [by left|]. simpl.
  destruct (Qle_bool last pct && Qgt_bool p pct) eqn:E.
  - apply fires_iff in E as [H1 H2]. right. exists pct, message.
    rewrite reminded_after_firing. split_and!; [apply list_elem_of_here|done..].
  - destruct IH as [IH|(pct' & message' & Hin & H1 & H2 & IH)]; [by left|].
    right. exists pct', message'. split_and!; [by apply list_elem_of_further|done..].
Qed.

Lemma setLastThreshold_same o : setLastThreshold (lastThreshold o) o = o.
Proof. by destruct o. Qed.

Lemma remind_run ths p text o w :
  remind ths p text (o, w) =
  (Returned tt,
   (setLastThreshold (reminded ths p (lastThreshold o)).1 o,
    appendLog (reminderEvent text <$> (reminded ths p (lastThreshold o)).2) w)).
Proof.
  revert o w. induction ths as [|[pct message] rest IH]; intros o w; simpl.
  - by rewrite setLastThreshold_same, appendLog_nil.
  - unfold mbind at 1 2, M_bind, getSelf, gets. simpl.
    destruct (Qle_bool (lastThreshold o) pct && Qgt_bool p pct); simpl.
    + rewrite IH. simpl.
      destruct (reminded rest p p) as [last' messages]. simpl.
      by rewrite appendLog_appendLog.
    + apply IH.
Qed.

(** A call of [progressUpdate] returns; it sets the percentage of the
    view, posts what [remindedBy] tells and nothing else, and leaves the
    days and the handlers alone. *)
Local Ltac run_observer :=
  unfold mbind, M_bind, mret, M_ret, onSelf, getSelf, inWorld, zoom, modify, gets;
  repeat (case_decide; try done);
  cbn -[remind reminded thresholds appendLog setPercentage_].

Lemma progressUpdate_run sin interval p r o w :
  exists view win,
    MacPomObserver_progressUpdate sin interval p r (o, w) =
    (Returned tt,
     ({| progressView := setPercentage_ p view;
         window := win;
         lastThreshold := (remindedBy interval p r (lastThreshold o)).1;
         active := true |},
      appendLog (remindedBy interval p r (lastThreshold o)).2 w)).
Proof.
  unfold MacPomObserver_progressUpdate, remindedBy, remindable.
  destruct (decide (r = AlreadySet)) as [->|Hr].
  - destruct interval as [q|b]; [destruct (intention q) as [i|] eqn:Hi|].
    + run_observer. rewrite remind_run.
      destruct (reminded thresholds p _) as [last' messages].
      run_observer. eexists _, _. reflexivity.
    + run_observer. rewrite appendLog_nil.
      eexists _, _. reflexivity.
    + run_observer. rewrite appendLog_nil. eexists _, _. reflexivity.
  - destruct r; try done; run_observer; rewrite appendLog_nil;
      eexists _, _; reflexivity.
Qed.

Lemma progressUpdate_step sin interval p r o w :
  exists o' es,
    MacPomObserver_progressUpdate sin interval p r (o, w) = (Returned tt, (o', appendLog es w))
    /\ _percentage (progressView o') = p
    /\ ((es = [] /\ lastThreshold o' = lastThreshold o)
        \/ exists pct message text,
             (pct, message) ∈ thresholds
             /\ (lastThreshold o <= pct)%Q /\ (pct < p)%Q
             /\ es = [reminderEvent text message] /\ lastThreshold o' = p).
Proof.
  destruct (progressUpdate_run sin interval p r o w) as (view & win & Hrun).
  eexists _, _. split; [exact Hrun|]. split; [done|]. simpl.
  unfold remindedBy. destruct (remindable interval r) as [text|]; [|by left].
  destruct (reminded_cases thresholds p (lastThreshold o))
    as [Hnone|(pct & message & Hin & H1 & H2 & Hone)].
  - rewrite Hnone. by left.
  - rewrite Hone. right. by exists pct, message, text.
Qed.

(** No two thresholds share a message. *)
Lemma thresholds_message_inj pct1 pct2 message :
  (pct1, message) ∈ thresholds -> (pct2, message) ∈ thresholds -> pct1 = pct2.
Proof.
  unfold thresholds. rewrite !elem_of_cons, !elem_of_nil.
  intros [H1|[H1|[H1|[H1|[]]]]] [H2|[H2|[H2|[H2|[]]]]]; congruence.
Qed.

Lemma count_reminderEvent message text message' :
  count (isReminder message) [reminderEvent text message']
  = if decide (message' = message) then 1%nat else 0%nat.
Proof.
  rewrite count_cons. unfold isReminder, reminderEvent.
  rewrite bool_decide_eq_true_2 by done. simpl.
  destruct (decide (message' = message)).
  - by rewrite bool_decide_eq_true_2.
  - by rewrite bool_decide_eq_false_2.
Qed.

Lemma not_Qle_bool a b : Qle_bool a b = false <-> (b < a)%Q.
Proof.
  rewrite <- not_true_iff_false, Qle_bool_iff.
  split; [apply Qnot_le_lt | apply Qlt_not_le].
Qed.

(** Over any succession of updates, a threshold's reminder is posted at
    most once, and not at all once [lastThreshold] is past the
    threshold. *)
Lemma progressUpdates_count sin pct message calls :
  (pct, message) ∈ thresholds ->
  forall o w,
    exists es,
      log (progressUpdates sin calls (o, w)).2.2 = log w ++ es
      /\ (count (isReminder message) es
          <= if Qle_bool (lastThreshold o) pct then 1 else 0)%nat.
Proof.
  intros Hin. induction calls as [|[[interval p] r] rest IH]; intros o w.
  - exists []. simpl. rewrite (right_id_L [] (++)). split; [done|]. unfold count. simpl. lia.
  - simpl. unfold mbind, M_bind.
    destruct (progressUpdate_step sin interval p r o w)
      as (o' & es1 & -> & _ & [[-> Hlast]|Hfired]).
    + rewrite appendLog_nil. destruct (IH o' w) as (es & Hlog & Hcount).
      exists es. by rewrite Hlast in Hcount.
    + destruct Hfired as (pct0 & message0 & text & Hin0 & H1 & H2 & -> & Hlast).
      destruct (IH o' (appendLog [reminderEvent text message0] w))
        as (es & Hlog & Hcount).
      exists (reminderEvent text message0 :: es).
      split; [rewrite Hlog; simpl; by rewrite <- (assoc_L (++))|].
      change (reminderEvent text message0 :: es)
        with ([reminderEvent text message0] ++ es).
      rewrite count_app, count_reminderEvent, Hlast in *.
      destruct (decide (message0 = message)) as [->|Hne].
      * assert (pct0 = pct) as -> by by eapply thresholds_message_inj.
        assert (Qle_bool p pct = false) as Hp by by apply not_Qle_bool.
        assert (Qle_bool (lastThreshold o) pct = true) as Ho by by apply Qle_bool_iff.
        rewrite Hp in Hcount. rewrite Ho. lia.
      * destruct (Qle_bool (lastThreshold o) pct) eqn:Ho.
        -- destruct (Qle_bool p pct); lia.
        -- apply not_Qle_bool in Ho.
           assert (Qle_bool p pct = false) as Hp by (apply not_Qle_bool; lra).
           rewrite Hp in Hcount. lia.
Qed.



(** C8. A call of [progressUpdate] posts at most one reminder, for a
    threshold between [lastThreshold] and the percentage, and then sets
    [lastThreshold] to the percentage. So, over any succession of calls
    with no [pomodoroStarting] between them, each of the four thresholds
    has its reminder posted at most once, and a threshold [lastThreshold]
    is past has it posted no more: what one update jumps over is skipped.
    [pomodoroStarting] sets [lastThreshold] back to [0.0]. *)
Theorem reminders_fire_at_most_once (sin : Q -> Q) :
  (forall interval p r o w,
     exists o' es,
       MacPomObserver_progressUpdate sin interval p r (o, w)
       = (Returned tt, (o', appendLog es w))
       /\ ((es = [] /\ lastThreshold o' = lastThreshold o)
           \/ exists pct message text,
                (pct, message) ∈ thresholds
                /\ (lastThreshold o <= pct)%Q /\ (pct < p)%Q
                /\ es = [reminderEvent text message] /\ lastThreshold o' = p))
  /\ (forall calls o w pct message,
        (pct, message) ∈ thresholds ->
        exists es,
          log (progressUpdates sin calls (o, w)).2.2 = log w ++ es
          /\ (count (isReminder message) es <= 1)%nat
          /\ ((pct < lastThreshold o)%Q -> count (isReminder message) es = 0%nat))
  /\ (forall day startingPomodoro o w,
        lastThreshold (MacPomObserver_pomodoroStarting day startingPomodoro (o, w)).2.1
        = 0%Q).
Proof.
  split_and!.
  - intros interval p r o w.
    destruct (progressUpdate_step sin interval p r o w) as (o' & es & Hrun & _ & H).
    by exists o', es.
  - intros calls o w pct message Hin.
    destruct (progressUpdates_count sin pct message calls Hin o w) as (es & Hlog & Hcount).
    exists es. split_and!; [done| |].
    + destruct (Qle_bool (lastThreshold o) pct); lia.
    + intros Hpast. apply not_Qle_bool in Hpast. rewrite Hpast in Hcount. lia.
  - reflexivity.
Qed.

(** ** The theorems at concrete inputs *)


Lemma reminders_fire_at_most_once_witness :
  (exists es,
     log (progressUpdates (fun _ => 0%Q) sampleCalls
            (sampleObserver, sampleWorld)).2.2
     = log sampleWorld ++ es
     /\ (count (isReminder "Time to get started!") es <= 1)%nat)
  /\ (exists es,
        log (progressUpdates (fun _ => 0%Q) sampleCalls
               (setLastThreshold 0.6%Q sampleObserver, sampleWorld)).2.2
        = log sampleWorld ++ es
        /\ count (isReminder "Halfway there.") es = 0%nat).
Proof.
  pose proof (reminders_fire_at_most_once (fun _ => 0%Q)) as (_ & Hrun & _).
  split.
  - destruct (Hrun sampleCalls sampleObserver sampleWorld
                0.25%Q "Time to get started!")
      as (es & Hlog & Hcount & _).
    { unfold thresholds. apply list_elem_of_here. }
    exists es. split; [exact Hlog | exact Hcount].
  - destruct (Hrun sampleCalls (setLastThreshold 0.6%Q sampleObserver)
                sampleWorld 0.50%Q "Halfway there.")
      as (es & Hlog & _ & Hnone).
    { unfold thresholds. apply list_elem_of_further, list_elem_of_here. }
    exists es. split; [exact Hlog|]. apply Hnone. vm_compute. reflexivity.
Defined.


(** During a break, "This is successful" goes to the Pomodoro that
    elapsed last, here one without intention; "Previous was successful"
    goes to the one before it, here one already judged. *)
Example setSuccess_during_a_break :
  (thisAndPreviousPoms sampleAfternoon).*1 = [InElapsed 2; InElapsed 0]
  /\ subtitles (log (setSuccess Spec.evaluateIntention sampleManager true 0
                       sampleAfternoonWorld).2) = ["Automatic Failure"]
  /\ log (setSuccess Spec.evaluateIntention sampleManager true (-1)
            sampleAfternoonWorld).2
     = [EvNotificationRequest messageIdentifier "" "Success Previously Set" ""
          "Pomodoro Already successful."]
  /\ setSuccess Spec.evaluateIntention sampleManager true (-2) sampleAfternoonWorld
     = (Returned tt, sampleAfternoonWorld).
Proof. vm_compute. done. Qed.

(** An update at 60% posts the reminder of the first threshold alone; the
    second threshold, jumped over, is not made up for later. *)
Example jumped_thresholds_are_skipped :
  subtitles (log (progressUpdates (fun _ => 0%Q)
                    [ (IPomodoro samplePomodoro, 0.6%Q, AlreadySet);
                      (IPomodoro samplePomodoro, 0.7%Q, AlreadySet);
                      (IPomodoro samplePomodoro, 0.8%Q, AlreadySet);
                      (IPomodoro samplePomodoro, 0.99%Q, AlreadySet) ]
                    (sampleObserver, sampleWorld)).2.2)
  = ["Time to get started!"; "Time to finish up."; "Almost done!"].
Proof. vm_compute. done. Qed.

(** A tick on which the scheduler fails prints the traceback, and the
    tick after it is made all the same. *)
Example failing_ticks_go_on :
  let s := (start (fun _ => 0%Q) noPomodoros noPomodoros noPomodoros noPomodoros
              failingAdvanceToTime false sampleForTesting sampleLoad
              (sampleManager, sampleWorld)).2 in
  let '(r, (self, w)) :=
    runTicks (fun _ => 0%Q) noPomodoros noPomodoros noPomodoros noPomodoros
      failingAdvanceToTime false sampleForTesting sampleLoad
      [5100000; 5200000] s in
  r = Returned tt
  /\ (running <$> loopingCall self) = Some true
  /\ count (fun e => match e with
                     | EvPrint "advanceToTime failed" => true
                     | _ => false
                     end) (log w) = 3%nat.
Proof. vm_compute. done. Qed.

(** * Further properties of the driver *)

(** ** What [thisAndPreviousPoms] yields *)

Lemma pomodorosOf_elapsed_yielded (l : list Interval) p : forall (k i : nat),
  l !! i = Some (IPomodoro p) ->
  (InElapsed (k + i), p) ∈ pomodorosOf (imap (fun i x => (InElapsed (k + i), x)) l).
Proof.
  induction l as [|x l IH]; intros k i Hi; [done|].
  unfold pomodorosOf. simpl.
  assert (Heq : imap ((fun i x => (InElapsed (k + i), x)) ∘ S) l
                = imap (fun i x => (InElapsed (S k + i), x)) l).
  { apply imap_ext. intros j y _. simpl. do 2 f_equal. lia. }
  rewrite Heq.
  destruct i as [|i]; simpl in Hi.
  - injection Hi as ->. simpl. apply list_elem_of_here.
  - replace (k + S i)%nat with (S k + i)%nat by lia.
    specialize (IH (S k) i Hi).
    destruct (pomOfInterval x); simpl; [by apply list_elem_of_further | done].
Qed.

Lemma pomodorosOf_elapsed_elem (l : list Interval) (k : nat) r p :
  (r, p) ∈ pomodorosOf (imap (fun i x => (InElapsed (k + i), x)) l)
  <-> exists i, r = InElapsed (k + i) /\ l !! i = Some (IPomodoro p).
Proof.
  split; [apply pomodorosOf_deref_elapsed|].
  intros (i & -> & Hi). by apply pomodorosOf_elapsed_yielded.
Qed.

Lemma pomodorosOf_elapsed_NoDup (l : list Interval) (k : nat) :
  NoDup (pomodorosOf (imap (fun i x => (InElapsed (k + i), x)) l)).*1.
Proof.
  revert k. induction l as [|x l IH]; intros k; [constructor|].
  unfold pomodorosOf. simpl.
  assert (Heq : imap ((fun i x => (InElapsed (k + i), x)) ∘ S) l
                = imap (fun i x => (InElapsed (S k + i), x)) l).
  { apply imap_ext. intros j y _. simpl. do 2 f_equal. lia. }
  rewrite Heq.
  destruct (pomOfInterval x) as [p|]; simpl; [|exact (IH (S k))].
  constructor; [|exact (IH (S k))].
  rewrite list_elem_of_fmap. intros ([r q] & Hr & Hin). simpl in Hr. subst r.
  apply (pomodorosOf_elapsed_elem l (S k)) in Hin as (i & Hi & _).
  injection Hi. lia.
Qed.

(** X1. [thisAndPreviousPoms] yields exactly the Pomodoros the day holds
    at the head of its pending intervals and among its elapsed intervals,
    each of these objects once: no Pomodoro that is pending behind the
    head is yielded, and no elapsed Pomodoro is left out. *)
Theorem thisAndPreviousPoms_yields_each_once (d : Day) :
  (forall r p,
     (r, p) ∈ thisAndPreviousPoms d
     <-> derefPom d r = Some p /\ (r = InPending 0 \/ exists i, r = InElapsed i))
  /\ NoDup (thisAndPreviousPoms d).*1.
Proof.
  split.
  - intros r p. rewrite thisAndPreviousPoms_elapsedPoms, elem_of_app, elem_of_reverse.
    unfold elapsedPoms. rewrite (pomodorosOf_elapsed_elem _ 0). split.
    + intros [Hhead|(i & -> & Hi)].
      * destruct (pendingIntervals d) as [|[q|b] rest] eqn:E;
          try by apply elem_of_nil in Hhead.
        apply list_elem_of_singleton in Hhead. injection Hhead as -> ->.
        split; [|by left]. simpl. by rewrite E.
      * split; [|right; by eexists]. simpl. by rewrite Hi.
    + intros [Hderef [->|[i ->]]].
      * left. simpl in Hderef.
        destruct (pendingIntervals d) as [|[q|b] rest]; simpl in Hderef; try done.
        injection Hderef as ->. apply list_elem_of_here.
      * right. exists i. split; [done|]. simpl in Hderef.
        destruct (elapsedIntervals d !! i) as [[q|b]|]; simpl in Hderef; try done.
        by injection Hderef as ->.
  - rewrite thisAndPreviousPoms_elapsedPoms, fmap_app, fmap_reverse.
    apply NoDup_app. split_and!.
    + destruct (pendingIntervals d) as [|[q|b] rest]; simpl;
        [constructor | apply NoDup_singleton | constructor].
    + intros r Hhead Hel. rewrite elem_of_reverse, list_elem_of_fmap in Hel.
      destruct Hel as ([r' q] & Hr & Hin). simpl in Hr. subst r'.
      apply (pomodorosOf_elapsed_elem _ 0) in Hin as (i & -> & _).
      destruct (pendingIntervals d) as [|[q'|b] rest]; simpl in Hhead;
        try by apply elem_of_nil in Hhead.
      by apply list_elem_of_singleton in Hhead.
    + rewrite reverse_Permutation. apply (pomodorosOf_elapsed_NoDup _ 0).
Qed.

(** ** What the entry points leave alone *)

#[export] Instance onlyDay_preorder day : PreOrder (onlyDay day).
Proof.
  split.
  - by intros w.
  - intros w1 w2 w3 (Hc1 & Hh1 & Hd1) (Hc2 & Hh2 & Hd2).
    split_and!; [congruence..|]. intros r Hr. by rewrite Hd2, Hd1.
Qed.

#[export] Instance noSave_preorder : PreOrder noSave.
Proof.
  split.
  - intros w. exists []. by rewrite (right_id_L [] (++)).
  - intros w1 w2 w3 (es1 & Hl1 & Hc1) (es2 & Hl2 & Hc2).
    exists (es1 ++ es2).
    rewrite Hl2, Hl1, (assoc_L (++)), count_app, Hc1, Hc2. done.
Qed.

Lemma emit_onlyDay day e : preserves (onlyDay day) (emit e).
Proof. by intros w. Qed.

Lemma readDay_onlyDay day r : preserves (onlyDay day) (readDay r).
Proof. by intros w. Qed.

Lemma writeDay_onlyDay day d : preserves (onlyDay day) (writeDay day d).
Proof.
  intros w. split_and!; [done..|]. intros r Hr. simpl.
  by rewrite lookup_insert_ne.
Qed.

Lemma print_onlyDay day line : preserves (onlyDay day) (print line).
Proof. apply emit_onlyDay. Qed.

Lemma notify_onlyDay day title subtitle informativeText :
  preserves (onlyDay day) (notify title subtitle informativeText).
Proof. apply emit_onlyDay. Qed.

#[export] Hint Resolve emit_onlyDay readDay_onlyDay writeDay_onlyDay print_onlyDay
  notify_onlyDay : effects.

Lemma callDay_onlyDay {A} day c (method : Day -> Outcome A * Day) :
  preserves (onlyDay day) (callDay day c method).
Proof. unfold callDay. repeat effects_step. Qed.

Lemma saveDay_onlyDay day : preserves (onlyDay day) (saveDay day).
Proof. unfold saveDay. repeat effects_step. Qed.

#[export] Hint Resolve callDay_onlyDay saveDay_onlyDay : effects.

Lemma emit_noSave e : isSaveDay e = false -> preserves noSave (emit e).
Proof.
  intros He w. exists [e]. split; [done|]. by rewrite count_cons, He.
Qed.

Lemma notify_noSave title subtitle informativeText :
  preserves noSave (notify title subtitle informativeText).
Proof. by apply emit_noSave. Qed.

Lemma sameLog_noSave (g : World -> World) :
  (forall w, log (g w) = log w) -> preserves noSave (modify g).
Proof.
  intros H. apply preserves_modify. intros w. exists [].
  by rewrite H, (right_id_L [] (++)).
Qed.

Lemma callDay_noSave {A} day c (method : Day -> Outcome A * Day) :
  preserves noSave (callDay day c method).
Proof.
  unfold callDay. repeat effects_step.
  - by apply emit_noSave.
  - by apply sameLog_noSave.
Qed.

#[export] Hint Resolve notify_noSave callDay_noSave : effects.

Section Frames.

Variable Day_expressIntention : datetime -> string -> Day -> Outcome IntentionResponse * Day.
Variable Day_evaluateIntention : PomRef -> bool -> Day -> Outcome unit * Day.
Variable Day_bonusPomodoro : datetime -> Day -> Outcome unit * Day.
Variable runModal : World -> Outcome (Z * string).

Lemma expressIntention_onlyDay day newIntention :
  preserves (onlyDay day) (expressIntention Day_expressIntention day newIntention).
Proof. unfold expressIntention, now. repeat effects_step. Qed.

Lemma setSuccessFrom_preserves (R : relation World) `{!PreOrder R} self succeeded index :
  (forall ref aPom, preserves R (judge Day_evaluateIntention self succeeded ref aPom)) ->
  forall idx poms,
    preserves R (setSuccessFrom Day_evaluateIntention self succeeded index idx poms).
Proof.
  intros Hjudge idx poms. revert idx.
  induction poms as [|[ref aPom] rest IH]; intros idx; simpl.
  - by apply preserves_ret.
  - destruct (decide (idx = - index)); [apply Hjudge | apply IH].
Qed.

(** X2. [setSuccess] never saves the day: whatever the index and whatever
    the scheduler does, the log gains no save, though the day may have
    got a verdict. *)
Theorem setSuccess_never_saves (self : DayManager) (succeeded : bool) (index : Z) :
  preserves noSave (setSuccess Day_evaluateIntention self succeeded index).
Proof.
  unfold setSuccess. apply preserves_bind; [apply _| |].
  - apply preserves_gets. apply _.
  - intros d. apply setSuccessFrom_preserves; [apply _|].
    intros ref aPom. unfold judge. repeat effects_step.
Qed.

(** X3. The entry points that work on a day, [expressIntention],
    [setIntention], [bonus] and [setSuccess], leave every other day of the
    store as it is, and the stored handlers and the clock too, whatever
    the scheduler does and whether they return or raise. *)
Theorem entry_points_touch_only_their_day :
  (forall day newIntention,
     preserves (onlyDay day) (expressIntention Day_expressIntention day newIntention))
  /\ (forall day,
        preserves (onlyDay day) (setIntention Day_expressIntention runModal day))
  /\ (forall when day,
        preserves (onlyDay day) (bonus Day_bonusPomodoro when day))
  /\ (forall self succeeded index,
        preserves (onlyDay (day self))
          (setSuccess Day_evaluateIntention self succeeded index)).
Proof.
  split_and!.
  - apply expressIntention_onlyDay.
  - intros day. unfold setIntention. apply preserves_tryExcept; [apply _| |].
    + unfold getString. repeat effects_step. apply expressIntention_onlyDay.
    + intros e. apply print_onlyDay.
  - intros when day. unfold bonus. repeat effects_step.
  - intros self succeeded index.
    unfold setSuccess. apply preserves_bind; [apply _|eauto with effects|].
    intros d. apply setSuccessFrom_preserves; [apply _|].
    intros ref aPom. unfold judge. repeat effects_step.
Qed.

End Frames.

(** ** Answers to the prompt for an intention *)

Section Answers.

Variable Day_expressIntention : datetime -> string -> Day -> Outcome IntentionResponse * Day.

Local Abbreviation expressIntention := (expressIntention Day_expressIntention).
Local Abbreviation didReceiveNotificationResponse :=
  (didReceiveNotificationResponse Day_expressIntention).

Lemma didReceive_no_handler identifier userText w :
  handlers w !! identifier = None ->
  didReceiveNotificationResponse identifier userText w
  = (Returned tt, appendLog [EvPrint "no handler"] w).
Proof.
  intros Hnone. unfold MacGui.didReceiveNotificationResponse.
  unfold mbind, M_bind, gets, modify. simpl. rewrite Hnone. simpl.
  rewrite delete_id by done. by destruct w.
Qed.

Lemma didReceive_text identifier day text w :
  handlers w !! identifier = Some (LambdaExpressIntention day) ->
  didReceiveNotificationResponse identifier (Some text) w
  = (print ("received response " +:+ text);; expressIntention day text)
      (setHandlers (delete identifier (handlers w)) w).
Proof.
  intros Hsome. unfold MacGui.didReceiveNotificationResponse.
  unfold mbind at 1 2, M_bind, gets, modify. simpl. by rewrite Hsome.
Qed.

Lemma didReceive_handlers identifier userText w :
  handlers (didReceiveNotificationResponse identifier userText w).2
  = delete identifier (handlers w).
Proof.
  destruct (handlers w !! identifier) as [[day]|] eqn:Hlk.
  - destruct userText as [text|].
    + rewrite (didReceive_text _ day) by done.
      unfold mbind, M_bind, print, emit, modify. simpl.
      match goal with
      | |- context [expressIntention day text ?w0] =>
          destruct (expressIntention_onlyDay Day_expressIntention day text w0)
            as (_ & Hh & _);
          destruct (expressIntention day text w0) as [[[]|e] w1]
      end; exact Hh.
    + unfold MacGui.didReceiveNotificationResponse.
      unfold mbind, M_bind, gets, modify. simpl. by rewrite Hlk.
  - rewrite didReceive_no_handler by done. simpl. by rewrite delete_id.
Qed.

(** X4. The callback [pomodoroStarting] stores is called by the answer
    to the prompt, and once: an answer with text expresses that text as the
    intention of the day [pomodoroStarting] was given; an answer without
    text calls nothing; either way the callback is taken out of the
    handlers, also when it raises, so that a second answer under the
    same identifier finds no handler. *)
Theorem prompt_answer_is_expressed_once :
  (forall day startingPomodoro o w text,
     let w1 := (MacPomObserver_pomodoroStarting day startingPomodoro (o, w)).2.2 in
     didReceiveNotificationResponse "ask-for-intent" (Some text) w1
     = (print ("received response " +:+ text);; expressIntention day text)
         (setHandlers (delete "ask-for-intent" (handlers w1)) w1))
  /\ (forall day startingPomodoro o w,
        let w1 := (MacPomObserver_pomodoroStarting day startingPomodoro (o, w)).2.2 in
        didReceiveNotificationResponse "ask-for-intent" None w1
        = (Returned tt,
           appendLog [EvPrint "fail?"]
             (setHandlers (delete "ask-for-intent" (handlers w1)) w1)))
  /\ (forall identifier userText w,
        handlers (didReceiveNotificationResponse identifier userText w).2
        = delete identifier (handlers w))
  /\ (forall identifier first second w,
        let w1 := (didReceiveNotificationResponse identifier first w).2 in
        didReceiveNotificationResponse identifier second w1
        = (Returned tt, appendLog [EvPrint "no handler"] w1)).
Proof.
  split_and!.
  - intros day p o w text w1. apply didReceive_text.
    subst w1. simpl. apply lookup_insert_eq.
  - intros day p o w w1. unfold MacGui.didReceiveNotificationResponse.
    unfold mbind, M_bind, gets, modify. simpl.
    subst w1. simpl. by rewrite lookup_insert_eq.
  - apply didReceive_handlers.
  - intros identifier first second w w1. apply didReceive_no_handler.
    subst w1. rewrite didReceive_handlers. apply lookup_delete_eq.
Qed.

End Answers.

(** ** The one slot for a handler *)

#[export] Instance oneHandlerSlot_preorder : PreOrder oneHandlerSlot.
Proof.
  split.
  - intros w. unfold oneHandlerSlot. apply union_subseteq_l.
  - intros w1 w2 w3. unfold oneHandlerSlot. intros H1 H2 x Hx.
    apply H2, elem_of_union in Hx as [Hx|Hx].
    + by apply H1.
    + by apply elem_of_union_r.
Qed.

#[export] Instance oneHandlerSlotBy_preorder {O} : PreOrder (@oneHandlerSlotBy O).
Proof.
  split.
  - intros s. unfold oneHandlerSlotBy. reflexivity.
  - intros s1 s2 s3. unfold oneHandlerSlotBy. intros H1 H2. by etransitivity.
Qed.

Lemma sameHandlers_oneHandlerSlot (g : World -> World) :
  (forall w, handlers (g w) = handlers w) -> preserves oneHandlerSlot (modify g).
Proof.
  intros H. apply preserves_modify. intros w. unfold oneHandlerSlot.
  rewrite H. apply union_subseteq_l.
Qed.

Lemma emit_oneHandlerSlot e : preserves oneHandlerSlot (emit e).
Proof. by apply sameHandlers_oneHandlerSlot. Qed.

Lemma print_oneHandlerSlot line : preserves oneHandlerSlot (print line).
Proof. apply emit_oneHandlerSlot. Qed.

Lemma notify_oneHandlerSlot title subtitle informativeText :
  preserves oneHandlerSlot (notify title subtitle informativeText).
Proof. apply emit_oneHandlerSlot. Qed.

Lemma askForIntent_oneHandlerSlot callback : preserves oneHandlerSlot (askForIntent callback).
Proof.
  unfold askForIntent. apply preserves_bind; [apply _| |intros _; apply emit_oneHandlerSlot].
  apply preserves_modify. intros w. unfold oneHandlerSlot. simpl.
  rewrite dom_insert_L, (comm_L (∪)). reflexivity.
Qed.

Lemma inWorld_oneHandlerSlot {O A} (m : M World A) :
  preserves oneHandlerSlot m -> preserves (@oneHandlerSlotBy O) (inWorld m).
Proof.
  intros Hm. unfold inWorld.
  apply (preserves_zoom _ oneHandlerSlot); [done|]. by intros s t H.
Qed.

Lemma onSelf_oneHandlerSlot {O} (g : O -> O) : preserves (@oneHandlerSlotBy O) (onSelf g).
Proof. intros s. unfold oneHandlerSlotBy. simpl. reflexivity. Qed.

Lemma getSelf_oneHandlerSlot {O A} (g : O -> A) :
  preserves (@oneHandlerSlotBy O) (getSelf g).
Proof. intros s. unfold oneHandlerSlotBy. simpl. reflexivity. Qed.

#[export] Hint Resolve print_oneHandlerSlot notify_oneHandlerSlot
  askForIntent_oneHandlerSlot inWorld_oneHandlerSlot onSelf_oneHandlerSlot
  getSelf_oneHandlerSlot : effects.

Lemma remind_oneHandlerSlot ths percentageElapsed text :
  preserves oneHandlerSlotBy (remind ths percentageElapsed text).
Proof.
  induction ths as [|[pct message] rest IH]; simpl.
  - eauto with effects.
  - repeat effects_step.
Qed.

#[export] Hint Resolve remind_oneHandlerSlot : effects.

Lemma runObserverCall_oneHandlerSlot sin c :
  preserves oneHandlerSlotBy (runObserverCall sin c).
Proof.
  destruct c; simpl.
  - unfold MacPomObserver_breakStarting. repeat effects_step.
  - unfold MacPomObserver_pomodoroStarting. repeat effects_step.
  - unfold MacPomObserver_elapsedWithNoIntention. repeat effects_step.
  - unfold MacPomObserver_progressUpdate. repeat effects_step.
  - unfold MacPomObserver_dayOver. repeat effects_step.
  - unfold MacPomObserver_setWindow. repeat effects_step.
Qed.

Lemma runObserverCalls_oneHandlerSlot sin cs :
  preserves oneHandlerSlotBy (runObserverCalls sin cs).
Proof.
  induction cs as [|c rest IH]; simpl.
  - eauto with effects.
  - apply preserves_bind; [apply _| apply runObserverCall_oneHandlerSlot |].
    intros _. exact IH.
Qed.

(** X5. The handlers of the notification delegate have one slot: whatever
    calls are made on the observer, in whatever order, no handler is
    stored but under the identifier of the prompt for an intention, and
    [pomodoroStarting] puts its callback there whatever was there: a
    prompt that was not answered is replaced by the next one. *)
Theorem observer_stores_one_handler (sin : Q -> Q) :
  (forall cs o w,
     dom (handlers (runObserverCalls sin cs (o, w)).2.2)
     ⊆ dom (handlers w) ∪ {[ "ask-for-intent" ]})
  /\ (forall day startingPomodoro o w,
        handlers (MacPomObserver_pomodoroStarting day startingPomodoro (o, w)).2.2
        !! "ask-for-intent"
        = Some (LambdaExpressIntention day)).
Proof.
  split.
  - intros cs o w. exact (runObserverCalls_oneHandlerSlot sin cs (o, w)).
  - intros day startingPomodoro o w. simpl. apply lookup_insert_eq.
Qed.

Section Ignored.

Variable Day_expressIntention : datetime -> string -> Day -> Outcome IntentionResponse * Day.

(** X23. Only the prompt can be answered. With no handler to begin with,
    as [NotificationDelegate.init] leaves it, and whatever calls are made
    on the observer, the answer to a notification posted by [notify] finds
    no handler: it is printed so and nothing else happens. *)
Theorem answers_to_plain_notifications_find_no_handler
  (sin : Q -> Q) (cs : list ObserverCall) (o : MacPomObserver) (w : World)
  (userText : option string) :
  handlers w = ∅ ->
  let w1 := (runObserverCalls sin cs (o, w)).2.2 in
  didReceiveNotificationResponse Day_expressIntention messageIdentifier userText w1
  = (Returned tt, appendLog [EvPrint "no handler"] w1).
Proof.
  intros Hempty w1. apply didReceive_no_handler.
  apply not_elem_of_dom. intros Hin.
  pose proof (runObserverCalls_oneHandlerSlot sin cs (o, w)) as Hslot.
  unfold oneHandlerSlotBy, oneHandlerSlot in Hslot. simpl in Hslot.
  apply Hslot in Hin. rewrite Hempty, dom_empty_L in Hin.
  apply elem_of_union in Hin as [Hin|Hin].
  - by apply elem_of_empty in Hin.
  - apply elem_of_singleton in Hin. discriminate.
Qed.

End Ignored.

Lemma answers_to_plain_notifications_find_no_handler_witness :
  let w1 := (runObserverCalls (fun _ => 0%Q)
               [CallPomodoroStarting 0%nat samplePomodoro;
                CallProgressUpdate (IPomodoro samplePomodoro) 0.3%Q AlreadySet]
               (sampleObserver, sampleWorld)).2.2 in
  didReceiveNotificationResponse (Spec.expressIntention (fun _ _ => true))
    messageIdentifier (Some "done") w1
  = (Returned tt, appendLog [EvPrint "no handler"] w1).
Proof.
  apply (answers_to_plain_notifications_find_no_handler
           (Spec.expressIntention (fun _ _ => true)) (fun _ => 0%Q)
           [CallPomodoroStarting 0%nat samplePomodoro;
            CallProgressUpdate (IPomodoro samplePomodoro) 0.3%Q AlreadySet]
           sampleObserver sampleWorld (Some "done") eq_refl).
Defined.

(** ** The window, the bar and the answers of [progressUpdate] *)

(** The cases of a call of [progressUpdate]: the response, and for
    [AlreadySet] whether the interval is a Pomodoro with an intention. *)
Local Ltac progressUpdate_cases r interval :=
  unfold MacPomObserver_progressUpdate;
  destruct r;
  [ | destruct interval as [[[?i|] ? ?]|?] | | | ];
  run_observer;
  try (rewrite remind_run;
       destruct (reminded thresholds _ _) as [? ?];
       run_observer).

Lemma progressUpdate_shows sin interval p r o w :
  let o' := (MacPomObserver_progressUpdate sin interval p r (o, w)).2.1 in
  isVisible (window o') = true /\ active o' = true.
Proof. progressUpdate_cases r interval; done. Qed.

Lemma runObserverCall_shownIffActive sin c o w :
  shownIffActive o -> shownIffActive (runObserverCall sin c (o, w)).2.1.
Proof.
  intros Ho. unfold shownIffActive.
  destruct c as [b|day q|q|iv p r| |newWindow]; simpl.
  - reflexivity.
  - reflexivity.
  - exact Ho.
  - destruct (progressUpdate_shows sin iv p r o w) as [-> ->].
    reflexivity.
  - reflexivity.
  - reflexivity.
Qed.

Lemma runObserverCalls_shownIffActive sin cs : forall o w,
  shownIffActive o -> shownIffActive (runObserverCalls sin cs (o, w)).2.1.
Proof.
  induction cs as [|c rest IH]; intros o w Ho; [exact Ho|].
  simpl. unfold mbind, M_bind.
  pose proof (runObserverCall_shownIffActive sin c o w Ho) as Hc.
  destruct (runObserverCall sin c (o, w)) as [[[]|e] [o1 w1]]; simpl in Hc.
  - by apply IH.
  - exact Hc.
Qed.

(** X6. The window is on screen exactly while the observer is active.
    [__post_init__] makes it so, whatever the window it is given and
    whether the observer is made active or not, and every callback and
    [setWindow] keep it so, in whatever order they are called. *)
Theorem window_shows_iff_active (sin : Q -> Q) :
  (forall o w, shownIffActive (MacPomObserver_post_init (o, w)).2.1)
  /\ (forall cs o w,
        shownIffActive o -> shownIffActive (runObserverCalls sin cs (o, w)).2.1).
Proof.
  split.
  - reflexivity.
  - apply runObserverCalls_shownIffActive.
Qed.

Lemma window_shows_iff_active_witness :
  shownIffActive sampleObserver
  /\ shownIffActive
       (runObserverCalls (fun _ => 0%Q)
          [CallProgressUpdate (IPomodoro samplePomodoro) 0.3%Q AlreadySet;
           CallDayOver; CallSetWindow makeOneWindow]
          (sampleObserver, sampleWorld)).2.1.
Proof.
  assert (H : shownIffActive sampleObserver) by reflexivity.
  split; [exact H|].
  destruct (window_shows_iff_active (fun _ => 0%Q)) as [_ Hcalls].
  apply Hcalls. exact H.
Defined.



(** X8. The colours of the bar tell the response of the last progress
    update: yellow and purple while an intention can be set, green and blue
    once it is set, light and dark gray on a break, orange and red when it
    is too late; any other response leaves the colours as they were. No
    callback else touches them, so from the green and red of a new view on
    the two colours always differ. *)
Theorem bar_colours_tell_the_response (sin : Q -> Q) :
  (forall interval p r o w,
     let view := progressView (MacPomObserver_progressUpdate sin interval p r (o, w)).2.1 in
     (_leftColor view, _rightColor view) =
     match r with
     | CanBeSet => (yellowColor, purpleColor)
     | AlreadySet => (greenColor, blueColor)
     | OnBreak => (lightGrayColor, darkGrayColor)
     | TooLate => (orangeColor, redColor)
     | WasSet => (_leftColor (progressView o), _rightColor (progressView o))
     end)
  /\ (forall cs o w,
        _leftColor (progressView o) <> _rightColor (progressView o) ->
        let view := progressView (runObserverCalls sin cs (o, w)).2.1 in
        _leftColor view <> _rightColor view)
  /\ _leftColor BigProgressView_init <> _rightColor BigProgressView_init.
Proof.
  assert (Hone : forall interval p r o w,
     let view := progressView (MacPomObserver_progressUpdate sin interval p r (o, w)).2.1 in
     (_leftColor view, _rightColor view) =
     match r with
     | CanBeSet => (yellowColor, purpleColor)
     | AlreadySet => (greenColor, blueColor)
     | OnBreak => (lightGrayColor, darkGrayColor)
     | TooLate => (orangeColor, redColor)
     | WasSet => (_leftColor (progressView o), _rightColor (progressView o))
     end).
  { intros interval p r o w. progressUpdate_cases r interval; reflexivity. }
  split_and!; [exact Hone| |done].
  induction cs as [|c rest IH]; intros o w Ho; [exact Ho|].
  simpl. unfold mbind, M_bind.
  assert (Hc : _leftColor (progressView (runObserverCall sin c (o, w)).2.1)
               <> _rightColor (progressView (runObserverCall sin c (o, w)).2.1)).
  { destruct c as [b|day q|q|iv p r| |newWindow]; try exact Ho.
    cbn [runObserverCall].
    pose proof (Hone iv p r o w) as H.
    cbv zeta in H.
    pose proof (f_equal fst H) as H1. pose proof (f_equal snd H) as H2.
    cbn [fst snd] in H1, H2. rewrite H1, H2.
    destruct r; done. }
  destruct (runObserverCall sin c (o, w)) as [[[]|e] [o1 w1]]; simpl in Hc.
  - by apply IH.
  - exact Hc.
Qed.

Lemma bar_colours_tell_the_response_witness :
  let view := progressView
                (runObserverCalls (fun _ => 0%Q)
                   [CallPomodoroStarting 0%nat samplePomodoro;
                    CallProgressUpdate (IPomodoro samplePomodoro) 0.3%Q WasSet;
                    CallProgressUpdate (IPomodoro samplePomodoro) 0.4%Q TooLate]
                   (sampleObserver, sampleWorld)).2.1 in
  _leftColor view <> _rightColor view.
Proof.
  destruct (bar_colours_tell_the_response (fun _ => 0%Q)) as (_ & Hcalls & Hinit).
  apply Hcalls. exact Hinit.
Defined.

(** ** Which reminder is posted *)

Lemma thresholds_ascending :
  StronglySorted (fun a b : Q * string => (a.1 < b.1)%Q) thresholds.
Proof.
  unfold thresholds.
  repeat (apply SSorted_cons; [|repeat (constructor; [reflexivity|]); constructor]).
  apply SSorted_nil.
Qed.

Lemma reminded_none ths p last :
  (forall pct message, (pct, message) ∈ ths -> ~ crossed last p pct) ->
  reminded ths p last = (last, []).
Proof.
  induction ths as [|[pct message] rest IH]; intros Hnone; [done|]. simpl.
  destruct (Qle_bool last pct && Qgt_bool p pct) eqn:E.
  - apply fires_iff in E.
    destruct (Hnone pct message (list_elem_of_here _ _)). exact E.
  - apply IH. intros pct' message' Hin. apply (Hnone pct' message').
    by apply list_elem_of_further.
Qed.

Lemma reminded_lowest ths p last pct message :
  StronglySorted (fun a b : Q * string => (a.1 < b.1)%Q) ths ->
  (pct, message) ∈ ths ->
  crossed last p pct ->
  (forall pct' message', (pct', message') ∈ ths -> crossed last p pct' -> (pct <= pct')%Q) ->
  reminded ths p last = (p, [message]).
Proof.
  induction ths as [|[pct0 message0] rest IH]; intros Hsorted Hin Hcrossed Hlowest.
  - by apply elem_of_nil in Hin.
  - apply StronglySorted_inv in Hsorted as [Hrest Hhead]. simpl.
    apply elem_of_cons in Hin as [[= <- <-]|Hin].
    + assert (E : Qle_bool last pct && Qgt_bool p pct = true) by by apply fires_iff.
      rewrite E. by rewrite reminded_after_firing.
    + destruct (Qle_bool last pct0 && Qgt_bool p pct0) eqn:E.
      * apply fires_iff in E.
        pose proof (Hlowest pct0 message0 (list_elem_of_here _ _) E) as Hle.
        rewrite Forall_forall in Hhead. specialize (Hhead _ Hin). simpl in Hhead.
        exfalso. lra.
      * apply IH; [done..|].
        intros pct' message' Hin'. apply (Hlowest pct' message').
        by apply list_elem_of_further.
Qed.

(** X9. A progress update of a Pomodoro with an intention, once the
    intention is set, posts a reminder whenever a threshold lies between
    [lastThreshold] and the percentage, and the one it posts is for the
    lowest such threshold, with the intention in quotes; the thresholds
    above it the update has jumped over get none. When no threshold lies
    there, and on a Break, a Pomodoro without intention or any other
    response, the update posts nothing and leaves [lastThreshold]. *)
Theorem reminder_is_for_the_lowest_threshold_crossed (sin : Q -> Q) :
  (forall q i p o w pct message,
     intention q = Some i ->
     (pct, message) ∈ thresholds ->
     crossed (lastThreshold o) p pct ->
     (forall pct' message',
        (pct', message') ∈ thresholds -> crossed (lastThreshold o) p pct' ->
        (pct <= pct')%Q) ->
     let s := (MacPomObserver_progressUpdate sin (IPomodoro q) p AlreadySet (o, w)).2 in
     s.2 = appendLog [EvNotificationRequest messageIdentifier "" "Remember Your Intention"
                        message (ldquo +:+ description i +:+ rdquo)] w
     /\ lastThreshold s.1 = p)
  /\ (forall interval p r o w,
        (forall pct message,
           (pct, message) ∈ thresholds -> ~ crossed (lastThreshold o) p pct)
        \/ r <> AlreadySet
        \/ (exists b, interval = IBreak b)
        \/ (exists q, interval = IPomodoro q /\ intention q = None) ->
        let s := (MacPomObserver_progressUpdate sin interval p r (o, w)).2 in
        s.2 = w /\ lastThreshold s.1 = lastThreshold o).
Proof.
  split.
  - intros q i p o w pct message Hi Hin Hcrossed Hlowest.
    destruct (progressUpdate_run sin (IPomodoro q) p AlreadySet o w) as (view & win & ->).
    assert (H : remindedBy (IPomodoro q) p AlreadySet (lastThreshold o)
                = (p, [reminderEvent (description i) message])).
    { unfold remindedBy, remindable. rewrite decide_True by done. rewrite Hi.
      cbn [fmap option_fmap option_map].
      by rewrite (reminded_lowest thresholds p (lastThreshold o) pct message
                    thresholds_ascending Hin Hcrossed Hlowest). }
    rewrite H. done.
  - intros interval p r o w Hnone.
    destruct (progressUpdate_run sin interval p r o w) as (view & win & ->).
    assert (H : remindedBy interval p r (lastThreshold o) = (lastThreshold o, [])).
    { unfold remindedBy.
      destruct (remindable interval r) as [text|] eqn:Htext; [|done].
      destruct Hnone as [Hnone|[Hr|[[b ->]|(q & -> & Hq)]]].
      - by rewrite reminded_none.
      - unfold remindable in Htext. by rewrite decide_False in Htext.
      - unfold remindable in Htext. by destruct (decide (r = AlreadySet)).
      - unfold remindable in Htext. rewrite Hq in Htext.
        by destruct (decide (r = AlreadySet)). }
    rewrite H. simpl. by rewrite appendLog_nil.
Qed.

Lemma reminder_is_for_the_lowest_threshold_crossed_witness :
  let s := (MacPomObserver_progressUpdate (fun _ => 0%Q) (IPomodoro samplePomodoro)
              0.8%Q AlreadySet (setLastThreshold 0.3%Q sampleObserver, sampleWorld)).2 in
  s.2 = appendLog [EvNotificationRequest messageIdentifier "" "Remember Your Intention"
                     "Halfway there." (ldquo +:+ "write the report" +:+ rdquo)] sampleWorld
  /\ lastThreshold s.1 = 0.8%Q.
Proof.
  destruct (reminder_is_for_the_lowest_threshold_crossed (fun _ => 0%Q)) as [Hposts _].
  apply (Hposts samplePomodoro
           {| description := "write the report"; wasSuccessful := None |}
           0.8%Q (setLastThreshold 0.3%Q sampleObserver) sampleWorld
           0.50%Q "Halfway there.").
  - reflexivity.
  - unfold thresholds. apply list_elem_of_further, list_elem_of_here.
  - split; vm_compute; [discriminate | reflexivity].
  - intros pct' message' Hin [Hlast _]. simpl in Hlast.
    unfold thresholds in Hin.
    repeat (apply elem_of_cons in Hin as [[= -> ->]|Hin]);
      [ exfalso; revert Hlast; vm_compute; intros H; by apply H
      | vm_compute; discriminate.. | by apply elem_of_nil in Hin ].
Defined.

(** X10. [pomodoroStarting] alone sets [lastThreshold] back: over any
    calls of the other callbacks and of [setWindow], in any order,
    [lastThreshold] never decreases, so a threshold it is past stays
    past. *)
Theorem only_pomodoroStarting_lowers_lastThreshold (sin : Q -> Q)
  (cs : list ObserverCall) (o : MacPomObserver) (w : World) :
  (forall day startingPomodoro, CallPomodoroStarting day startingPomodoro ∉ cs) ->
  (lastThreshold o <= lastThreshold (runObserverCalls sin cs (o, w)).2.1)%Q.
Proof.
  revert o w. induction cs as [|c rest IH]; intros o w Hcs; simpl.
  - apply Qle_refl.
  - assert (Hc : exists o1 w1,
               runObserverCall sin c (o, w) = (Returned tt, (o1, w1))
               /\ (lastThreshold o <= lastThreshold o1)%Q).
    { destruct c as [b|day q|q|iv p r| |newWindow]; simpl;
        try (eexists _, _; split; [reflexivity|apply Qle_refl]).
      - destruct (Hcs day q). apply list_elem_of_here.
      - destruct (progressUpdate_step sin iv p r o w)
          as (o1 & es & -> & _ & [[_ Heq]|(pct & message & text & _ & H1 & H2 & _ & Heq)]);
          eexists _, _; (split; [reflexivity|]); rewrite Heq; [apply Qle_refl|lra]. }
    destruct Hc as (o1 & w1 & Hrun & Hle).
    unfold mbind, M_bind. rewrite Hrun.
    eapply Qle_trans; [exact Hle|]. apply IH.
    intros day p Hin. apply (Hcs day p). by apply list_elem_of_further.
Qed.

Lemma only_pomodoroStarting_lowers_lastThreshold_witness :
  (0.6 <= lastThreshold
            (runObserverCalls (fun _ => 0%Q)
               [CallProgressUpdate (IPomodoro samplePomodoro) 0.3%Q AlreadySet;
                CallDayOver;
                CallProgressUpdate (IPomodoro samplePomodoro) 0.8%Q AlreadySet]
               (setLastThreshold 0.6%Q sampleObserver, sampleWorld)).2.1)%Q.
Proof.
  apply (only_pomodoroStarting_lowers_lastThreshold (fun _ => 0%Q)
           [CallProgressUpdate (IPomodoro samplePomodoro) 0.3%Q AlreadySet;
            CallDayOver;
            CallProgressUpdate (IPomodoro samplePomodoro) 0.8%Q AlreadySet]
           (setLastThreshold 0.6%Q sampleObserver) sampleWorld).
  intros day p Hin.
  repeat (apply elem_of_cons in Hin as [Hin|Hin]; [discriminate|]).
  by apply elem_of_nil in Hin.
Defined.

(** ** What the entry points do with a failure *)

Section Failures.

Variable Day_expressIntention : datetime -> string -> Day -> Outcome IntentionResponse * Day.
Variable Day_evaluateIntention : PomRef -> bool -> Day -> Outcome unit * Day.
Variable Day_bonusPomodoro : datetime -> Day -> Outcome unit * Day.
Variable runModal : World -> Outcome (Z * string).

Local Abbreviation expressIntention := (expressIntention Day_expressIntention).
Local Abbreviation setIntention := (setIntention Day_expressIntention runModal).
Local Abbreviation bonus := (bonus Day_bonusPomodoro).
Local Abbreviation setSuccess := (setSuccess Day_evaluateIntention).

Local Ltac run_world :=
  unfold MacGui.expressIntention, MacGui.bonus, MacGui.callDay, MacGui.saveDay,
    MacGui.getString, now, print, notify, emit, readDay, writeDay, modify, gets,
    mbind, M_bind, liftOutcome;
  simpl.

(** X11. The dialog of [setIntention] has no way out: with any button
    but OK, [getString] gives the empty text and [setIntention] goes on to
    express it, as it expresses the text of the field with OK. Only when
    the dialog itself raises is the scheduler not called: the traceback is
    printed and nothing else happens. *)
Theorem setIntention_expresses_the_empty_text_on_cancel (day : DayRef) (w : World) :
  (forall response text,
     runModal w = Returned (response, text) ->
     setIntention day w =
     tryExcept
       (print "String Get";;
        expressIntention day
          (if decide (response = NSAlertFirstButtonReturn) then text else ""))
       (fun e => print (getTraceback e)) w)
  /\ (forall e,
        runModal w = Raised e ->
        setIntention day w = (Returned tt, appendLog [EvPrint (getTraceback e)] w)).
Proof.
  split.
  - intros response text Hmodal.
    unfold MacGui.setIntention, tryExcept, MacGui.getString.
    unfold mbind, M_bind. rewrite Hmodal.
    by destruct (decide (response = NSAlertFirstButtonReturn)).
  - intros e Hmodal.
    unfold MacGui.setIntention, tryExcept, MacGui.getString.
    unfold mbind, M_bind. by rewrite Hmodal.
Qed.

(** X12. [expressIntention] has no handler of its own. What
    [Day.expressIntention] raises comes out of it, and an answer
    [AlreadySet] for a day with nothing pending raises [IndexError], for
    one whose current interval is a Break or a Pomodoro without intention
    [AttributeError]. In each of these cases no notification is posted
    and the day is not saved; the day stays as the scheduler left it. *)
Theorem expressIntention_failures_post_and_save_nothing
  (day : DayRef) (newIntention : string) (w : World) :
  let call := EvDayCall day (Call_expressIntention (clock w) newIntention) in
  (forall e d',
     Day_expressIntention (clock w) newIntention (days w !!! day) = (Raised e, d') ->
     expressIntention day newIntention w
     = (Raised e, appendLog [call] (setDays (<[day := d']> (days w)) w)))
  /\ (forall d',
        Day_expressIntention (clock w) newIntention (days w !!! day)
        = (Returned AlreadySet, d') ->
        let w' := appendLog [call; EvPrint ("IR " +:+ IntentionResponse_str AlreadySet)]
                    (setDays (<[day := d']> (days w)) w) in
        match pendingIntervals d' with
        | [] => expressIntention day newIntention w = (Raised IndexError, w')
        | IBreak _ :: _ =>
            expressIntention day newIntention w = (Raised AttributeError, w')
        | IPomodoro p :: _ =>
            intention p = None ->
            expressIntention day newIntention w = (Raised AttributeError, w')
        end).
Proof.
  intros call. split.
  - intros e d' Hcall. run_world. rewrite Hcall. simpl.
    by rewrite setDays_appendLog.
  - intros d' Hcall w'. subst w'. run_world. rewrite Hcall. simpl.
    rewrite lookup_total_insert_eq.
    destruct (pendingIntervals d') as [|[p|b] rest]; simpl.
    + by rewrite setDays_appendLog, appendLog_appendLog.
    + intros ->. simpl. by rewrite setDays_appendLog, appendLog_appendLog.
    + by rewrite setDays_appendLog, appendLog_appendLog.
Qed.

(** X13. [bonus] saves the day once, as [Day.bonusPomodoro] has left it.
    It has no handler either: when [bonusPomodoro] raises, the exception
    comes out of [bonus] and the day is not saved. *)
Theorem bonus_saves_the_day_bonusPomodoro_left
  (when : datetime) (day : DayRef) (w : World) :
  let call := EvDayCall day (Call_bonusPomodoro when) in
  match Day_bonusPomodoro when (days w !!! day) with
  | (Returned _, d') =>
      bonus when day w
      = (Returned tt,
         appendLog [call; EvSaveDay day d'] (setDays (<[day := d']> (days w)) w))
  | (Raised e, d') =>
      bonus when day w
      = (Raised e, appendLog [call] (setDays (<[day := d']> (days w)) w))
  end.
Proof.
  intros call. run_world.
  destruct (Day_bonusPomodoro when (days w !!! day)) as [[[]|e] d']; simpl.
  - by rewrite lookup_total_insert_eq, setDays_appendLog, appendLog_appendLog.
  - by rewrite setDays_appendLog.
Qed.


End Failures.

Lemma setIntention_expresses_the_empty_text_on_cancel_witness :
  MacGui.setIntention (Spec.expressIntention (fun _ _ => true))
    (fun _ => Returned (1001, "never mind")) 0%nat sampleWorld
  = tryExcept
      (print "String Get";;
       MacGui.expressIntention (Spec.expressIntention (fun _ _ => true)) 0%nat "")
      (fun e => print (getTraceback e)) sampleWorld.
Proof.
  apply (proj1 (setIntention_expresses_the_empty_text_on_cancel
                  (Spec.expressIntention (fun _ _ => true))
                  (fun _ => Returned (1001, "never mind")) 0%nat sampleWorld)
           1001 "never mind" eq_refl).
Defined.

Lemma expressIntention_failures_post_and_save_nothing_witness :
  MacGui.expressIntention (fun _ _ d => (Returned AlreadySet, d)) 0%nat "again"
    sampleAfternoonWorld
  = (Raised AttributeError,
     appendLog [EvDayCall 0%nat (Call_expressIntention (clock sampleAfternoonWorld) "again");
                EvPrint ("IR " +:+ IntentionResponse_str AlreadySet)]
       (setDays (<[0%nat := sampleAfternoon]> (days sampleAfternoonWorld))
          sampleAfternoonWorld)).
Proof.
  apply (proj2 (expressIntention_failures_post_and_save_nothing
                  (fun _ _ d => (Returned AlreadySet, d)) 0%nat "again"
                  sampleAfternoonWorld)
           sampleAfternoon eq_refl).
Defined.


(** ** New days and a new manager *)

Section NewDay.

Variable TEST_MODE : bool.
Variable Day_forTesting : World -> Outcome Day.
Variable loadOrCreateDay : date -> World -> Outcome Day.

Local Abbreviation newDay := (newDay TEST_MODE Day_forTesting loadOrCreateDay).
Local Abbreviation new :=
  (DayManager_new TEST_MODE Day_forTesting loadOrCreateDay).

Lemma newDay_run forDate w :
  let line := if TEST_MODE then "Creating testing day"
              else "New production-mode date " +:+ pretty forDate in
  let w0 := appendLog [EvPrint line] w in
  newDay forDate w =
  match (if TEST_MODE then Day_forTesting w0 else loadOrCreateDay forDate w0) with
  | Returned d =>
      (Returned (fresh (dom (days w))), setDays (<[fresh (dom (days w)) := d]> (days w)) w0)
  | Raised e => (Raised e, w0)
  end.
Proof.
  unfold MacGui.newDay, print, emit, modify, allocDay, mbind, M_bind.
  destruct TEST_MODE; simpl.
  - by destruct (Day_forTesting _).
  - by destruct (loadOrCreateDay _ _).
Qed.

(** X15. [newDay] takes the day from [Day.forTesting()] in test mode,
    whatever the date, and from [loadOrCreateDay(forDate)] otherwise. The
    day it returns is one more object: every day there was is still there
    and as it was. When the source raises, [newDay] raises the same and
    there is no new day. *)
Theorem newDay_adds_one_day (forDate : date) (w : World) :
  let line := if TEST_MODE then "Creating testing day"
              else "New production-mode date " +:+ pretty forDate in
  let w0 := appendLog [EvPrint line] w in
  match (if TEST_MODE then Day_forTesting w0 else loadOrCreateDay forDate w0) with
  | Returned d =>
      exists r,
        newDay forDate w = (Returned r, setDays (<[r := d]> (days w)) w0)
        /\ (r ∉ dom (days w))
        /\ forall r', r' ∈ dom (days w) ->
             days (newDay forDate w).2 !! r' = days w !! r'
  | Raised e => newDay forDate w = (Raised e, w0)
  end.
Proof.
  intros line w0. rewrite newDay_run. fold line w0.
  destruct (if TEST_MODE then Day_forTesting w0 else loadOrCreateDay forDate w0)
    as [d|e]; [|done].
  exists (fresh (dom (days w))). split_and!; [done|apply is_fresh|].
  intros r' Hr'. simpl. apply lookup_insert_ne.
  intros <-. by apply (is_fresh (dom (days w))).
Qed.

(** X16. A manager made by [DayManager.new] starts out of sight: its
    observer is inactive with [lastThreshold] at 0, the window
    [makeOneWindow] has shown is hidden again by [__post_init__], the bar
    is empty, green and red, and there is no looping call yet. Its day is
    the one [newDay] makes for today, an object that was not there before;
    when [newDay] raises, so does [new]. *)
Theorem DayManager_new_starts_hidden (w : World) :
  let w0 := appendLog [EvPrint "post-init False"] w in
  match newDay (dateOf (clock w)) w0 with
  | (Returned r, w1) =>
      new w
      = (Returned
           {| observer :=
                {| progressView := BigProgressView_init;
                   window := {| isVisible := false; alphaValue := 0.1 |};
                   lastThreshold := 0;
                   active := false |};
              day := r;
              loopingCall := None |},
         w1)
      /\ (r ∉ dom (days w)) /\ is_Some (days w1 !! r)
  | (Raised e, w1) => new w = (Raised e, w1)
  end.
Proof.
  intros w0. unfold DayManager_new.
  unfold MacPomObserver_post_init, mbind, M_bind, getSelf, gets, inWorld, zoom, onSelf,
    modify, print, emit, today. simpl.
  change ("post-init " +:+ "False") with "post-init False". fold w0.
  destruct (newDay (dateOf (clock w)) w0) as [[r|e] w1] eqn:Hnew; [|done].
  split; [done|].
  destruct (newDay_returned _ _ _ _ _ _ _ Hnew) as (_ & Hfresh & Hsome).
  done.
Qed.

End NewDay.

(** ** The label of the status item *)

Lemma append_cons (x : Ascii.ascii) (a b : string) :
  String x a +:+ b = String x (a +:+ b).
Proof. reflexivity. Qed.

Lemma append_assoc (a b c : string) : (a +:+ b) +:+ c = a +:+ b +:+ c.
Proof. induction a as [|x a IH]; [done|]. rewrite !append_cons. by f_equal. Qed.

Lemma pretty_N_char_digit x : isDigit (pretty_N_char x) = true.
Proof. unfold pretty_N_char. by repeat case_match. Qed.

Lemma pretty_N_go_digits x : forall s,
  allDigits s = true -> allDigits (pretty_N_go x s) = true.
Proof.
  induction (N.lt_wf_0 x) as [x _ IH]; intros s Hs.
  destruct (decide (0 < x)%N) as [Hx|Hx].
  - rewrite pretty_N_go_step by done. apply IH.
    + by apply N.div_lt.
    + simpl. by rewrite pretty_N_char_digit.
  - assert (x = 0%N) as -> by lia. by rewrite pretty_N_go_0.
Qed.

Lemma pretty_nat_digits (n : nat) : allDigits (pretty n) = true.
Proof.
  unfold pretty, pretty_nat, pretty, pretty_N.
  destruct (decide (N.of_nat n = 0%N)); [done|]. by apply pretty_N_go_digits.
Qed.

(** Two counts, each followed by a character that is no digit, are read
    apart in one way. *)
Lemma digits_delimited (d d' : string) (c c' : Ascii.ascii) (x y : string) :
  allDigits d = true -> allDigits d' = true ->
  isDigit c = false -> isDigit c' = false ->
  d +:+ String c x = d' +:+ String c' y ->
  d = d' /\ c = c' /\ x = y.
Proof.
  intros Hd Hd' Hc Hc'. revert d' Hd'.
  induction d as [|a d IH]; intros [|a' d'] Hd' Heq;
    rewrite ?append_cons in Heq; change ("" +:+ ?s) with s in Heq; simpl in *.
  - by injection Heq as -> ->.
  - injection Heq as -> _. apply andb_prop in Hd' as [Ha' _]. congruence.
  - injection Heq as -> _. apply andb_prop in Hd as [Ha _]. congruence.
  - injection Heq as -> Heq.
    apply andb_prop in Hd as [_ Hd]. apply andb_prop in Hd' as [_ Hd'].
    destruct (IH Hd d' Hd' Heq) as (-> & -> & ->). done.
Qed.

Lemma counts_delimited (n n' : nat) (c c' : Ascii.ascii) (x y : string) :
  isDigit c = false -> isDigit c' = false ->
  pretty n +:+ String c x = pretty n' +:+ String c' y ->
  n = n' /\ c = c' /\ x = y.
Proof.
  intros Hc Hc' Heq.
  destruct (digits_delimited _ _ _ _ _ _ (pretty_nat_digits n) (pretty_nat_digits n')
              Hc Hc' Heq) as (Hn & -> & ->).
  by apply (inj pretty) in Hn as ->.
Qed.

Lemma String_inj (a a' : Ascii.ascii) (x y : string) :
  String a x = String a' y -> a = a' /\ x = y.
Proof. by intros [= -> ->]. Qed.

Lemma append_nil_l (a : string) : "" +:+ a = a.
Proof. reflexivity. Qed.

Lemma icon_delimited (icon icon' x y : string) :
  icon = tomato \/ icon = can -> icon' = tomato \/ icon' = can ->
  icon +:+ x = icon' +:+ y -> icon = icon' /\ x = y.
Proof.
  assert (Htomato : tomato = String (Ascii.ascii_of_nat 240) (String (Ascii.ascii_of_nat 159)
                     (String (Ascii.ascii_of_nat 141) (String (Ascii.ascii_of_nat 133) ""))))
    by reflexivity.
  assert (Hcan : can = String (Ascii.ascii_of_nat 240) (String (Ascii.ascii_of_nat 159)
                  (String (Ascii.ascii_of_nat 165) (String (Ascii.ascii_of_nat 171) ""))))
    by reflexivity.
  intros [->| ->] [->| ->]; rewrite ?Htomato, ?Hcan, !append_cons, !append_nil_l;
    intros Heq; try (by injection Heq); exfalso; vm_compute in Heq; discriminate.
Qed.

Section Label.

Variable Day_successfulPomodoros : Day -> Outcome (list Pomodoro).
Variable Day_failedPomodoros : Day -> Outcome (list Pomodoro).
Variable Day_unEvaluatedPomodoros : Day -> Outcome (list Pomodoro).
Variable Day_pendingPomodoros : Day -> Outcome (list Pomodoro).

Local Abbreviation labelForDay :=
  (labelForDay Day_successfulPomodoros Day_failedPomodoros
     Day_unEvaluatedPomodoros Day_pendingPomodoros).

Local Ltac read_count H :=
  apply counts_delimited in H as (? & ? & H); [|reflexivity..].
Local Ltac skip_char H := apply String_inj in H as [_ H].

(** X17. The label of the status item can be read back: two days with the
    same label have the same number of successful, failed, unevaluated and
    pending Pomodoros. The label begins with the tomato when the
    successful Pomodoros outnumber the failed ones and with the can
    otherwise, and [labelForDay] changes nothing in the world. *)
Theorem labelForDay_tells_the_counts
  (day day' : Day) (w w' : World)
  (successful failures unEvaluated pending : list Pomodoro)
  (successful' failures' unEvaluated' pending' : list Pomodoro) :
  Day_successfulPomodoros day = Returned successful ->
  Day_failedPomodoros day = Returned failures ->
  Day_unEvaluatedPomodoros day = Returned unEvaluated ->
  Day_pendingPomodoros day = Returned pending ->
  Day_successfulPomodoros day' = Returned successful' ->
  Day_failedPomodoros day' = Returned failures' ->
  Day_unEvaluatedPomodoros day' = Returned unEvaluated' ->
  Day_pendingPomodoros day' = Returned pending' ->
  (exists rest,
     labelForDay day w
     = (Returned ((if decide (length failures < length successful)%nat
                   then tomato else can) +:+ ": " +:+ rest), w))
  /\ ((labelForDay day w).1 = (labelForDay day' w').1 ->
      length successful = length successful'
      /\ length failures = length failures'
      /\ length unEvaluated = length unEvaluated'
      /\ length pending = length pending').
Proof.
  intros Hs Hf Hm Hu Hs' Hf' Hm' Hu'.
  unfold MacGui.labelForDay, mbind, M_bind, liftOutcome.
  rewrite Hs, Hf, Hm, Hu, Hs', Hf', Hm', Hu'. cbn [fst snd mret M_ret].
  generalize (length successful) (length failures) (length unEvaluated) (length pending)
    (length successful') (length failures') (length unEvaluated') (length pending').
  intros s f m u s' f' m' u'. split.
  - destruct (decide (m = 0%nat)); eexists; rewrite !append_assoc; reflexivity.
  - intros [= Heq]. revert Heq.
    assert (Hcheck : checkMark = String (Ascii.ascii_of_nat 226)
                       (String (Ascii.ascii_of_nat 156) (String (Ascii.ascii_of_nat 147) "")))
      by reflexivity.
    assert (Hballot : ballotX = String (Ascii.ascii_of_nat 226)
                        (String (Ascii.ascii_of_nat 156) (String (Ascii.ascii_of_nat 151) "")))
      by reflexivity.
    assert (Hellipsis : ellipsis = String (Ascii.ascii_of_nat 226)
                          (String (Ascii.ascii_of_nat 128) (String (Ascii.ascii_of_nat 166) "")))
      by reflexivity.
    rewrite Hcheck, Hballot, Hellipsis. clear Hcheck Hballot Hellipsis.
    destruct (decide (m = 0%nat)) as [->|Hm0], (decide (m' = 0%nat)) as [->|Hm0'];
      rewrite !append_assoc, !append_cons, !append_nil_l; intros Heq;
      (apply icon_delimited in Heq as [_ Heq];
       [|clear Heq; case_decide; [by left|by right]..]);
      do 2 skip_char Heq; read_count Heq;
      do 3 skip_char Heq; read_count Heq;
      do 3 skip_char Heq; read_count Heq;
      try discriminate;
      try (skip_char Heq; read_count Heq);
      subst; done.
Qed.

End Label.

Lemma labelForDay_tells_the_counts_witness :
  length [samplePomodoro] = length [samplePomodoro]
  /\ length (@nil Pomodoro) = length (@nil Pomodoro)
  /\ length (@nil Pomodoro) = length (@nil Pomodoro)
  /\ length [samplePomodoro; samplePomodoro] = length [samplePomodoro; samplePomodoro].
Proof.
  apply (proj2 (labelForDay_tells_the_counts
                  (fun _ => Returned [samplePomodoro]) noPomodoros noPomodoros
                  (fun _ => Returned [samplePomodoro; samplePomodoro])
                  sampleDay sampleAfternoon sampleWorld sampleAfternoonWorld
                  [samplePomodoro] [] [] [samplePomodoro; samplePomodoro]
                  [samplePomodoro] [] [] [samplePomodoro; samplePomodoro]
                  eq_refl eq_refl eq_refl eq_refl eq_refl eq_refl eq_refl eq_refl)).
  reflexivity.
Defined.

(** ** What the user is told *)

Section Told.

Variable Day_expressIntention : datetime -> string -> Day -> Outcome IntentionResponse * Day.

Local Abbreviation expressIntention := (expressIntention Day_expressIntention).

(** X18. The notification of [expressIntention] tells the answer of the
    scheduler: the intention in quotes when it was set, the intention the
    current Pomodoro already has when there is one, that it is too late,
    or that a break is on. The answer [CanBeSet], which is no answer to
    expressing an intention, is reported as an internal error and printed
    once more. In each case the day is saved after the notification, as
    the scheduler left it. *)
Theorem expressIntention_tells_the_answer
  (day : DayRef) (newIntention : string) (w : World) (r : IntentionResponse) (d' : Day) :
  Day_expressIntention (clock w) newIntention (days w !!! day) = (Returned r, d') ->
  let told title subtitle body surprise :=
    expressIntention day newIntention w
    = (Returned tt,
       appendLog
         ([EvDayCall day (Call_expressIntention (clock w) newIntention);
           EvPrint ("IR " +:+ IntentionResponse_str r);
           EvNotificationRequest messageIdentifier "" title subtitle body]
          ++ surprise
          ++ [EvPrint "saving day"; EvSaveDay day d'; EvPrint "saved"])
         (setDays (<[day := d']> (days w)) w)) in
  match r with
  | WasSet => told "Intention Set" (ldquo +:+ newIntention +:+ rdquo) "" []
  | AlreadySet =>
      forall p i rest,
        pendingIntervals d' = IPomodoro p :: rest -> intention p = Some i ->
        told "Intention Not Set" "Already Specified"
          ("intention was already: " +:+ ldquo +:+ description i +:+ rdquo) []
  | TooLate =>
      told "Intention Not Set" "Too Late"
        "It's too late to set an intention. Try again next time!" []
  | OnBreak =>
      told "Intention Not Set" "You're On Break"
        "Set the intention when the pom begins." []
  | CanBeSet =>
      told "Intention Confusion" "Internal Error"
        ("received " +:+ IntentionResponse_str CanBeSet)
        [EvPrint ("very surprised: " +:+ IntentionResponse_str CanBeSet)]
  end.
Proof.
  intros Hcall told. subst told.
  unfold MacGui.expressIntention, MacGui.callDay, MacGui.saveDay, now, print, notify,
    emit, readDay, writeDay, modify, gets, mbind, M_bind, liftOutcome.
  simpl. rewrite Hcall. simpl.
  destruct r; simpl.
  - rewrite lookup_total_insert_eq, setDays_appendLog, !appendLog_appendLog.
    reflexivity.
  - intros p i rest Hp Hi. rewrite lookup_total_insert_eq, Hp. simpl. rewrite Hi. simpl.
    rewrite ?lookup_total_insert_eq, setDays_appendLog, !appendLog_appendLog.
    reflexivity.
  - rewrite lookup_total_insert_eq, setDays_appendLog, !appendLog_appendLog.
    reflexivity.
  - rewrite lookup_total_insert_eq, setDays_appendLog, !appendLog_appendLog.
    reflexivity.
  - rewrite lookup_total_insert_eq, setDays_appendLog, !appendLog_appendLog.
    reflexivity.
Qed.

End Told.

Lemma expressIntention_tells_the_answer_witness :
  MacGui.expressIntention (fun _ _ d => (Returned OnBreak, d)) 0%nat "rest"
    sampleAfternoonWorld
  = (Returned tt,
     appendLog
       [EvDayCall 0%nat (Call_expressIntention (clock sampleAfternoonWorld) "rest");
        EvPrint ("IR " +:+ IntentionResponse_str OnBreak);
        EvNotificationRequest messageIdentifier "" "Intention Not Set" "You're On Break"
          "Set the intention when the pom begins.";
        EvPrint "saving day"; EvSaveDay 0%nat sampleAfternoon; EvPrint "saved"]
       (setDays (<[0%nat := sampleAfternoon]> (days sampleAfternoonWorld))
          sampleAfternoonWorld)).
Proof.
  apply (expressIntention_tells_the_answer (fun _ _ d => (Returned OnBreak, d))
           0%nat "rest" sampleAfternoonWorld OnBreak sampleAfternoon eq_refl).
Defined.

Lemma reminded_head pct message rest p last :
  (last <= pct)%Q -> (pct < p)%Q ->
  reminded ((pct, message) :: rest) p last = (p, [message]).
Proof.
  intros H1 H2. simpl.
  assert (E : Qle_bool last pct && Qgt_bool p pct = true) by by apply fires_iff.
  rewrite E. by rewrite reminded_after_firing.
Qed.

(** X19. The first reminder of a Pomodoro is the one to get started,
    however far the Pomodoro is: [pomodoroStarting] sets [lastThreshold]
    to 0, so the first progress update past a quarter with the intention
    set posts "Time to get started!", also when it is past the later
    thresholds, which are then skipped. *)
Theorem first_reminder_is_to_get_started (sin : Q -> Q)
  (day : DayRef) (startingPomodoro q : Pomodoro) (i : Intention) (p : Q)
  (o : MacPomObserver) (w : World) :
  intention q = Some i ->
  (0.25 < p)%Q ->
  let s1 := (MacPomObserver_pomodoroStarting day startingPomodoro (o, w)).2 in
  let s2 := (MacPomObserver_progressUpdate sin (IPomodoro q) p AlreadySet s1).2 in
  s2.2 = appendLog [EvNotificationRequest messageIdentifier "" "Remember Your Intention"
                      "Time to get started!" (ldquo +:+ description i +:+ rdquo)] s1.2
  /\ lastThreshold s2.1 = p
  /\ forall interval p' r,
       log (MacPomObserver_progressUpdate sin interval p' r s2).2.2 = log s2.2
       \/ (p < p')%Q.
Proof.
  intros Hi Hp s1 s2.
  assert (Hfirst : reminded thresholds p 0 = (p, ["Time to get started!"])).
  { unfold thresholds. apply reminded_head; [done|exact Hp]. }
  assert (Hs2 : s2.2 = appendLog [reminderEvent (description i) "Time to get started!"] s1.2
                /\ lastThreshold s2.1 = p).
  { subst s2. destruct s1 as [o1 w1] eqn:Hs1.
    assert (Hlast : lastThreshold o1 = 0%Q).
    { subst s1. by injection Hs1 as <- _. }
    destruct (progressUpdate_run sin (IPomodoro q) p AlreadySet o1 w1) as (view & win & ->).
    unfold remindedBy, remindable. rewrite decide_True by done. rewrite Hi.
    cbn [fmap option_fmap option_map]. rewrite Hlast, Hfirst. done. }
  destruct Hs2 as [Hworld Hlast]. split_and!; [exact Hworld|exact Hlast|].
  intros interval p' r. destruct s2 as [o2 w2]. simpl in Hlast. simpl.
  destruct (progressUpdate_step sin interval p' r o2 w2)
    as (o3 & es & -> & _ & [[-> _]|(pct & message & text & _ & H1 & H2 & _)]).
  - left. simpl. by rewrite app_nil_r.
  - right. rewrite Hlast in H1. lra.
Qed.

Lemma first_reminder_is_to_get_started_witness :
  let s1 := (MacPomObserver_pomodoroStarting 0%nat samplePomodoro
               (sampleObserver, sampleWorld)).2 in
  let s2 := (MacPomObserver_progressUpdate (fun _ => 0%Q) (IPomodoro samplePomodoro)
               0.99%Q AlreadySet s1).2 in
  s2.2 = appendLog [EvNotificationRequest messageIdentifier "" "Remember Your Intention"
                      "Time to get started!" (ldquo +:+ "write the report" +:+ rdquo)] s1.2.
Proof.
  apply (first_reminder_is_to_get_started (fun _ => 0%Q) 0%nat samplePomodoro samplePomodoro
           {| description := "write the report"; wasSuccessful := None |} 0.99%Q
           sampleObserver sampleWorld eq_refl).
  vm_compute. reflexivity.
Defined.

(** ** A change of screens, and a change of date *)

(** X20. [recreateWindow] replaces the window and nothing else: the
    observer gets the window [makeOneWindow] makes, with alpha value 0.1,
    shown if the observer is active and hidden if it is not; the day, the
    looping call, the bar, [lastThreshold] and [active] stay, and the
    world gets the two lines printed. *)
Theorem recreateWindow_replaces_only_the_window (self : DayManager) (w : World) :
  let isActive := active (observer self) in
  recreateWindow (self, w)
  = (Returned tt,
     ({| observer :=
           {| progressView := progressView (observer self);
              window := {| isVisible := isActive; alphaValue := 0.1 |};
              lastThreshold := lastThreshold (observer self);
              active := isActive |};
         day := day self;
         loopingCall := loopingCall self |},
      appendLog [EvPrint "screens changed"; EvPrint ("set-window " +:+ bool_str isActive)] w))
  /\ shownIffActive (observer (recreateWindow (self, w)).2.1).
Proof.
  intros isActive. split; [|reflexivity].
  unfold recreateWindow, onObserver, MacPomObserver_setWindow, mbind, M_bind, inWorld, zoom,
    onSelf, getSelf, gets, modify, print, emit. simpl.
  by rewrite appendLog_appendLog.
Qed.

Section Midnight.

Variable TEST_MODE : bool.
Variable Day_forTesting : World -> Outcome Day.
Variable loadOrCreateDay : date -> World -> Outcome Day.
Variable Day_expressIntention : datetime -> string -> Day -> Outcome IntentionResponse * Day.

Local Abbreviation rollover := (rollover TEST_MODE Day_forTesting loadOrCreateDay).
Local Abbreviation newDay := (newDay TEST_MODE Day_forTesting loadOrCreateDay).
Local Abbreviation expressIntention := (expressIntention Day_expressIntention).
Local Abbreviation didReceiveNotificationResponse :=
  (didReceiveNotificationResponse Day_expressIntention).

(** X21. An answer that comes after the date has changed goes to the day
    of the prompt. When [update] replaces the manager's day, the day it
    held is still there as it was, and so is the callback of the prompt,
    which holds that day: the answer's text is expressed on the old day,
    not on the day the manager holds by then. *)
Theorem answer_after_rollover_goes_to_the_old_day
  (present : datetime) (self self' : DayManager) (w w1 : World)
  (promptDay : DayRef) (text : string) :
  handlers w !! "ask-for-intent" = Some (LambdaExpressIntention promptDay) ->
  promptDay ∈ dom (days w) ->
  dateOf present <> dateOf (startTime (days w !!! day self)) ->
  rollover present (self, w) = (Returned tt, (self', w1)) ->
  day self' <> promptDay
  /\ days w1 !! promptDay = days w !! promptDay
  /\ didReceiveNotificationResponse "ask-for-intent" (Some text) w1
     = (print ("received response " +:+ text);; expressIntention promptDay text)
         (setHandlers (delete "ask-for-intent" (handlers w1)) w1).
Proof.
  intros Hhandler Hlive Hdate Hroll.
  rewrite rollover_run, decide_False in Hroll by done.
  rewrite newDay_run in Hroll.
  destruct (if TEST_MODE then _ else _) as [d|e]; [|discriminate].
  injection Hroll as <- <-.
  assert (Hfresh : fresh (dom (days w)) <> promptDay).
  { intros Heq. rewrite <- Heq in Hlive. by apply is_fresh in Hlive. }
  split_and!.
  - exact Hfresh.
  - simpl. by apply lookup_insert_ne.
  - rewrite (didReceive_text _ _ promptDay); [reflexivity | exact Hhandler].
Qed.

End Midnight.

Lemma answer_after_rollover_goes_to_the_old_day_witness :
  let w := setHandlers {[ "ask-for-intent" := LambdaExpressIntention 0%nat ]} sampleTomorrow in
  let s := (rollover false sampleForTesting sampleLoad (clock w) (sampleManager, w)).2 in
  day s.1 <> 0%nat
  /\ days s.2 !! 0%nat = days w !! 0%nat.
Proof.
  intros w s.
  destruct (answer_after_rollover_goes_to_the_old_day
              false sampleForTesting sampleLoad (fun _ _ d => (Returned WasSet, d))
              (clock w) sampleManager s.1 w s.2 0%nat "late")
    as (Hday & Hkept & _).
  - reflexivity.
  - vm_compute. reflexivity.
  - vm_compute. discriminate.
  - vm_compute. reflexivity.
  - split; [exact Hday | exact Hkept].
Defined.

(** ** Ticks while no day can be loaded *)

Section Stalled.

Variable sin : Q -> Q.
Variable Day_successfulPomodoros : Day -> Outcome (list Pomodoro).
Variable Day_failedPomodoros : Day -> Outcome (list Pomodoro).
Variable Day_unEvaluatedPomodoros : Day -> Outcome (list Pomodoro).
Variable Day_pendingPomodoros : Day -> Outcome (list Pomodoro).
Variable Day_advanceToTime :
  forall O : Type, Observer O -> datetime -> DayRef -> M (O * World) unit.
Variable TEST_MODE : bool.
Variable Day_forTesting : World -> Outcome Day.
Variable loadOrCreateDay : date -> World -> Outcome Day.

Local Abbreviation update :=
  (update sin Day_successfulPomodoros Day_failedPomodoros
     Day_unEvaluatedPomodoros Day_pendingPomodoros Day_advanceToTime
     TEST_MODE Day_forTesting loadOrCreateDay).
Local Abbreviation runTicks :=
  (runTicks sin Day_successfulPomodoros Day_failedPomodoros
     Day_unEvaluatedPomodoros Day_pendingPomodoros Day_advanceToTime
     TEST_MODE Day_forTesting loadOrCreateDay).
Local Abbreviation newDay := (newDay TEST_MODE Day_forTesting loadOrCreateDay).

(** X22. While the day for the new date cannot be loaded, the ticks go on
    and change nothing: each tick after the date has changed prints the
    line of [newDay] and the traceback, and that is all. The manager keeps
    the day it had, [Day.advanceToTime] is not called on it, the title is
    not set, and the next tick tries to load the day again. *)
Theorem ticks_without_a_new_day_change_nothing
  (e : BaseException) (times : list datetime)
  (self : DayManager) (w : World) (lc : LoopingCall) :
  (forall forDate w0,
     (if TEST_MODE then Day_forTesting w0 else loadOrCreateDay forDate w0) = Raised e) ->
  loopingCall self = Some lc -> running lc = true -> f lc = UpdateClosure ->
  Forall (fun t => dateOf t <> dateOf (startTime (days w !!! day self))) times ->
  let line t := if TEST_MODE then "Creating testing day"
                else "New production-mode date " +:+ pretty (dateOf t) in
  let tick w t := appendLog [EvPrint (line t); EvPrint (getTraceback e)] (setClock t w) in
  runTicks times (self, w) = (Returned tt, (self, foldl tick w times))
  /\ days (foldl tick w times) = days w
  /\ noAdvanceCall w (foldl tick w times).
Proof.
  intros Hfail Hlc Hrun Hf Hdates line tick.
  assert (Htick : forall w0 t,
            dateOf t <> dateOf (startTime (days w0 !!! day self)) ->
            update (self, setClock t w0) = (Returned tt, (self, tick w0 t))).
  { intros w0 t Hdate.
    rewrite (update_when_newDay_raises _ _ _ _ _ _ _ _ _ self (setClock t w0) e
               (appendLog [EvPrint (line t)] (setClock t w0))).
    - by rewrite appendLog_appendLog.
    - exact Hdate.
    - rewrite newDay_run. simpl. rewrite Hfail. reflexivity. }
  assert (Hdays : forall ts w0, days (foldl tick w0 ts) = days w0).
  { induction ts as [|t rest IH]; intros w0; [done|]. simpl. by rewrite IH. }
  split_and!.
  - rewrite (runTicks_running _ _ _ _ _ _ _ _ _ times lc) by done.
    f_equal. clear Hlc. revert w Hdates.
    induction times as [|t rest IH]; intros w Hdates; [done|].
    apply Forall_cons in Hdates as [Hdate Hrest]. simpl.
    rewrite (Htick w t Hdate). simpl. apply IH. exact Hrest.
  - apply Hdays.
  - clear Hdates Htick Hlc. revert w.
    induction times as [|t rest IH]; intros w; [reflexivity|]. simpl.
    etransitivity; [|apply IH].
    exists [EvPrint (line t); EvPrint (getTraceback e)]. done.
Qed.

End Stalled.

Lemma ticks_without_a_new_day_change_nothing_witness :
  let self := setLoopingCall
                (Some {| f := UpdateClosure; interval := Some 0.1%Q; running := true |})
                sampleManager in
  let times := [clock sampleTomorrow; clock sampleTomorrow + 100000] in
  (runTicks (fun _ => 0%Q) noPomodoros noPomodoros noPomodoros noPomodoros
     sampleAdvanceToTime false sampleForTesting
     (fun _ _ => Raised (Exception "no such file")) times (self, sampleWorld)).2.1 = self.
Proof.
  intros self times.
  destruct (ticks_without_a_new_day_change_nothing
              (fun _ => 0%Q) noPomodoros noPomodoros noPomodoros noPomodoros
              sampleAdvanceToTime false sampleForTesting
              (fun _ _ => Raised (Exception "no such file"))
              (Exception "no such file") times self sampleWorld
              {| f := UpdateClosure; interval := Some 0.1%Q; running := true |})
    as (Hrun & _ & _).
  - reflexivity.
  - reflexivity.
  - reflexivity.
  - reflexivity.
  - repeat constructor; vm_compute; discriminate.
  - rewrite Hrun. reflexivity.
Defined.
